(** * ReactOS Setup Library: file support functions

    A shallow embedding of [base/setup/lib/filesup.c]:
    [ConcatPaths], [NtPathToDiskPartComponents], [OpenAndMapFile] and
    [UnMapFile], with the properties its specification states about them.

    Wide strings are lists of 16-bit code units, the destination buffer of
    [ConcatPaths] is a list of cells accessed by index (an access outside
    the modelled cells is a fault), and the kernel services used by the
    mapped-file functions act on an explicit kernel state that records
    every call. *)

From Stdlib Require Import ZArith String Ascii Lia.
From stdpp Require Import base tactics option list numbers.

Local Open Scope Z_scope.

(** ** Basic types of the NT headers *)

Abbreviation WCHAR := Z (only parsing).
Abbreviation ULONG := Z (only parsing).
Abbreviation NTSTATUS := Z (only parsing).
Definition BOOLEAN := bool.
Definition TRUE : BOOLEAN := true.
Definition FALSE : BOOLEAN := false.

Definition UNICODE_NULL : WCHAR := 0.
Definition OBJ_NAME_PATH_SEPARATOR : WCHAR := 92.
Definition ULONG_MAX : ULONG := 4294967295.

(** A status is a signed 32-bit [LONG]; the headers write the codes as
    unsigned hexadecimal numbers. *)
Definition ntstatus (code : Z) : NTSTATUS :=
  if code <? 2147483648 then code else code - 4294967296.

Definition STATUS_SUCCESS : NTSTATUS := ntstatus 0x00000000.
Definition STATUS_BUFFER_OVERFLOW : NTSTATUS := ntstatus 0x80000005.
Definition STATUS_INVALID_PARAMETER : NTSTATUS := ntstatus 0xC000000D.
Definition STATUS_INVALID_HANDLE : NTSTATUS := ntstatus 0xC0000008.
Definition STATUS_NOT_MAPPED_VIEW : NTSTATUS := ntstatus 0xC0000019.
Definition STATUS_OBJECT_NAME_NOT_FOUND : NTSTATUS := ntstatus 0xC0000034.

(** [NT_SUCCESS(Status)] is [((NTSTATUS)(Status)) >= 0]. *)
Definition NT_SUCCESS (Status : NTSTATUS) : bool := 0 <=? Status.

(** ** Wide strings

    A [PCWSTR] is a pointer into a NUL-terminated wide string.  It is
    modelled by the list of the cells from the pointer on; the terminator
    is implicit at the end of the list, and a [0] inside the list ends the
    string early, as it does in C. *)

Abbreviation PCWSTR := (list WCHAR) (only parsing).

(** [*p] *)
Definition deref (p : PCWSTR) : WCHAR := hd UNICODE_NULL p.

(** The characters of the string [p] points to: the cells before the
    first NUL. *)
Fixpoint cstr (p : PCWSTR) : list WCHAR :=
  match p with
  | [] => []
  | c :: p' => if c =? UNICODE_NULL then [] else c :: cstr p'
  end.

(** The literal [L"..."]. *)
Fixpoint L (s : string) : PCWSTR :=
  match s with
  | EmptyString => []
  | String a s' => Z.of_N (N_of_ascii a) :: L s'
  end.

(** ** The destination buffer

    [PathElem1] points to writable cells; [Buffer] lists the cells from
    that pointer on (the array and whatever lies behind it).  Reading or
    writing a cell outside the list is a fault, [None]. *)

Abbreviation Buffer := (list WCHAR) (only parsing).

Definition load (m : Buffer) (i : nat) : option WCHAR := m !! i.

Definition store (m : Buffer) (i : nat) (v : WCHAR) : option Buffer :=
  if (i <? length m)%nat then Some (<[i:=v]> m) else None.

(** Modelled from the spec: [wcslen] of the C runtime is not part of the
    file; it counts the cells before the first NUL and walks as far as it
    has to. *)
Fixpoint wcslen (m : Buffer) : option nat :=
  match m with
  | [] => None
  | c :: m' => if c =? UNICODE_NULL then Some O else S <$> wcslen m'
  end.

(** Modelled from the spec: [NTSTRSAFE_MAX_CCH] and [RtlStringCchCatW]
    with its workers come from ntstrsafe.h, which is not part of the
    file.  The concatenation is bounded by [cchDest] cells, keeps the
    destination NUL-terminated, and reports a string that does not fit
    with a length-exceeded status, [STATUS_BUFFER_OVERFLOW]. *)
Definition NTSTRSAFE_MAX_CCH : Z := 2147483647.

(** Modelled from the spec: the loop of the length worker,
    [while (cchMax && *psz != 0) { psz++; cchMax--; }], returning what is
    left of [cchMax]. *)
Fixpoint RtlStringLengthWorkerW_loop (m : Buffer) (psz cchMax : nat) : option nat :=
  match cchMax with
  | O => Some O
  | S cchMax' =>
      c ← load m psz;
      if c =? UNICODE_NULL then Some cchMax
      else RtlStringLengthWorkerW_loop m (S psz) cchMax'
  end.

(** Modelled from the spec: the length worker; a destination without a
    terminator in its first [cchMax] cells is an invalid parameter. *)
Definition RtlStringLengthWorkerW (m : Buffer) (psz cchMax : nat) : option (NTSTATUS * nat) :=
  left ← RtlStringLengthWorkerW_loop m psz cchMax;
  if (left =? 0)%nat then Some (STATUS_INVALID_PARAMETER, O)
  else Some (STATUS_SUCCESS, (cchMax - left)%nat).

(** Modelled from the spec: the loop of the copy worker,
    [while (cchDest && *pszSrc != 0) { *pszDest++ = *pszSrc++; cchDest--; }],
    returning the buffer, [pszDest] and [cchDest] at the exit. *)
Fixpoint RtlStringCopyWorkerW_loop (m : Buffer) (pszDest cchDest : nat) (pszSrc : PCWSTR)
  : option (Buffer * nat * nat) :=
  match pszSrc with
  | [] => Some (m, pszDest, cchDest)
  | c :: pszSrc' =>
      if (cchDest =? 0)%nat || (c =? UNICODE_NULL) then Some (m, pszDest, cchDest)
      else m' ← store m pszDest c;
           RtlStringCopyWorkerW_loop m' (S pszDest) (cchDest - 1) pszSrc'
  end.

(** Modelled from the spec: the copy worker; when the cells run out the
    last one receives the terminator and the status is
    [STATUS_BUFFER_OVERFLOW]. *)
Definition RtlStringCopyWorkerW (m : Buffer) (pszDest cchDest : nat) (pszSrc : PCWSTR)
  : option (NTSTATUS * Buffer) :=
  if (cchDest =? 0)%nat then Some (STATUS_INVALID_PARAMETER, m)
  else
    '(m1, pszDest1, cchDest1) ← RtlStringCopyWorkerW_loop m pszDest cchDest pszSrc;
    if (cchDest1 =? 0)%nat then
      m2 ← store m1 (pszDest1 - 1) UNICODE_NULL;
      Some (STATUS_BUFFER_OVERFLOW, m2)
    else
      m2 ← store m1 pszDest1 UNICODE_NULL;
      Some (STATUS_SUCCESS, m2).

(** Modelled from the spec: the concatenation worker, which copies
    behind the current length of the destination. *)
Definition RtlStringCatWorkerW (m : Buffer) (cchDest : nat) (pszSrc : PCWSTR)
  : option (NTSTATUS * Buffer) :=
  '(Status, cchDestLength) ← RtlStringLengthWorkerW m 0 cchDest;
  if NT_SUCCESS Status
  then RtlStringCopyWorkerW m cchDestLength (cchDest - cchDestLength) pszSrc
  else Some (Status, m).

(** Modelled from the spec: [RtlStringCchCatW(pszDest, cchDest, pszSrc)]. *)
Definition RtlStringCchCatW (m : Buffer) (cchDest : nat) (pszSrc : PCWSTR)
  : option (NTSTATUS * Buffer) :=
  if Z.of_nat cchDest >? NTSTRSAFE_MAX_CCH then Some (STATUS_INVALID_PARAMETER, m)
  else RtlStringCatWorkerW m cchDest pszSrc.

(** ** ConcatPaths *)

(** [while ( *PathElem2 == L'\\') ++PathElem2;] *)
Fixpoint skip_backslash (PathElem2 : PCWSTR) : PCWSTR :=
  match PathElem2 with
  | [] => []
  | c :: p' => if c =? OBJ_NAME_PATH_SEPARATOR then skip_backslash p' else PathElem2
  end.

(** [a && b] where [b] reads the buffer: [b] is evaluated only when [a]
    holds. *)
Definition and_then (a : bool) (b : option bool) : option bool :=
  if a then b else Some false.

(** [SIZE_T] values are natural numbers: the only subtraction,
    [cchPathLen-1], is guarded by [cchPathLen > 0]. *)
Definition ConcatPaths (PathElem1 : Buffer) (cchPathSize : nat) (PathElem2 : option PCWSTR)
  : option (NTSTATUS * Buffer) :=
  match PathElem2 with
  | None => Some (STATUS_SUCCESS, PathElem1)
  | Some PathElem2 =>
      if (cchPathSize <=? 1)%nat then Some (STATUS_SUCCESS, PathElem1)
      else
        len ← wcslen PathElem1;
        let cchPathLen := Nat.min cchPathSize len in
        let last_is_sep :=
          c ← load PathElem1 (cchPathLen - 1); Some (c =? OBJ_NAME_PATH_SEPARATOR) in
        and_then (negb (deref PathElem2 =? OBJ_NAME_PATH_SEPARATOR)
                  && (0 <? cchPathLen)%nat) (negb <$> last_is_sep) ≫= λ no_sep : bool,
        if no_sep then
          '(Status, m) ← RtlStringCchCatW PathElem1 cchPathSize [OBJ_NAME_PATH_SEPARATOR];
          if negb (NT_SUCCESS Status) then Some (Status, m)
          else RtlStringCchCatW m cchPathSize PathElem2
        else
          and_then ((deref PathElem2 =? OBJ_NAME_PATH_SEPARATOR)
                    && (0 <? cchPathLen)%nat) last_is_sep ≫= λ two_sep : bool,
          if two_sep
          then RtlStringCchCatW PathElem1 cchPathSize (skip_backslash PathElem2)
          else RtlStringCchCatW PathElem1 cchPathSize PathElem2
  end.

(** ** NtPathToDiskPartComponents *)

(** Modelled from the spec: [towlower], [iswdigit], [iswspace],
    [_wcsnicmp] and [wcstoul] belong to the C runtime, which is not part of
    the file.  Literals are compared without regard to the case of the
    letters A to Z, digits are the decimal digits 0 to 9, and a number is
    read by standard decimal parsing: leading white space and a sign are
    accepted, the longest run of digits is consumed, a value that does not
    fit an unsigned long is reported as [ULONG_MAX], and without any digit
    the end pointer is the start pointer. *)
Definition towlower (c : WCHAR) : WCHAR :=
  if (65 <=? c) && (c <=? 90) then c + 32 else c.

(** Modelled from the spec: the decimal digits. *)
Definition iswdigit (c : WCHAR) : bool := (48 <=? c) && (c <=? 57).

(** Modelled from the spec: the white space [wcstoul] skips. *)
Definition iswspace (c : WCHAR) : bool := ((9 <=? c) && (c <=? 13)) || (c =? 32).

(** Modelled from the spec: [_wcsnicmp(cs, ct, count)] compares at most
    [count] characters without regard to case and stops at a NUL. *)
Fixpoint _wcsnicmp (cs ct : PCWSTR) (count : nat) : Z :=
  match count with
  | O => 0
  | S count' =>
      if towlower (deref cs) =? towlower (deref ct) then
        if deref cs =? UNICODE_NULL then 0
        else _wcsnicmp (tail cs) (tail ct) count'
      else towlower (deref cs) - towlower (deref ct)
  end.

(** Modelled from the spec: the white space in front of the number. *)
Fixpoint wcstoul_space (s : PCWSTR) : PCWSTR :=
  match s with
  | c :: s' => if iswspace c then wcstoul_space s' else s
  | [] => []
  end.

(** Modelled from the spec: the optional sign. *)
Definition wcstoul_sign (s : PCWSTR) : bool * PCWSTR :=
  match s with
  | c :: s' => if c =? 45 then (true, s') else if c =? 43 then (false, s') else (false, s)
  | [] => (false, [])
  end.

(** Modelled from the spec: the digit loop in base 10; [acc] is the value
    so far, [any] is 0 before the first digit, 1 after it and -1 once the
    value overflowed. *)
Fixpoint wcstoul_digits (s : PCWSTR) (acc : ULONG) (any : Z) : ULONG * Z * PCWSTR :=
  match s with
  | c :: s' =>
      if iswdigit c then
        let d := c - 48 in
        if (any <? 0) || (acc >? ULONG_MAX / 10)
           || ((acc =? ULONG_MAX / 10) && (d >? ULONG_MAX mod 10))
        then wcstoul_digits s' acc (-1)
        else wcstoul_digits s' (acc * 10 + d) 1
      else (acc, any, s)
  | [] => (acc, any, [])
  end.

(** Modelled from the spec: [wcstoul(nptr, &endptr, 10)], returning the
    value and [endptr]. *)
Definition wcstoul (nptr : PCWSTR) : ULONG * PCWSTR :=
  let '(neg, s) := wcstoul_sign (wcstoul_space nptr) in
  let '(acc, any, rest) := wcstoul_digits s 0 0 in
  (if any <? 0 then ULONG_MAX else if neg then (- acc) mod 4294967296 else acc,
   if any =? 0 then nptr else rest).

(** What the caller finds at return: the returned [BOOLEAN] and the cells
    behind [pDiskNumber], [pPartNumber] and [PathComponent]; [None] is the
    [NULL] pointer. *)
Record DiskPartComponents := {
  ret : BOOLEAN;
  pDiskNumber : ULONG;
  pPartNumber : ULONG;
  PathComponent : option PCWSTR
}.

(** [HavePathComponent] tells whether the optional [PathComponent] pointer
    was passed.  [Quit] is the code after the label of that name. *)
Definition NtPathToDiskPartComponents (NtPath : PCWSTR) (HavePathComponent : bool)
  : DiskPartComponents :=
  let Failed :=
    {| ret := FALSE; pDiskNumber := 0; pPartNumber := 0; PathComponent := None |} in
  let Quit (DiskNumber pPartNumber : ULONG) (Path : PCWSTR) :=
    {| ret := TRUE; pDiskNumber := DiskNumber; pPartNumber := pPartNumber;
       PathComponent := if HavePathComponent then Some Path else None |} in
  let Path := NtPath in
  if negb (_wcsnicmp Path (L "\Device\Harddisk") 16 =? 0) then Failed else
  let Path := drop 16 Path in
  if negb (iswdigit (deref Path)) then Failed else
  let '(DiskNumber, Path) := wcstoul Path in
  if negb (deref Path =? UNICODE_NULL) && negb (deref Path =? OBJ_NAME_PATH_SEPARATOR)
  then Failed else
  if deref Path =? UNICODE_NULL then Quit DiskNumber 0 Path else
  if negb (_wcsnicmp Path (L "\Partition") 10 =? 0) then Quit DiskNumber 0 Path else
  let Path := drop 10 Path in
  if negb (iswdigit (deref Path)) then Quit DiskNumber 0 Path else
  let '(PartNumber, Path) := wcstoul Path in
  if negb (deref Path =? UNICODE_NULL) && negb (deref Path =? OBJ_NAME_PATH_SEPARATOR)
  then Quit DiskNumber 0 Path else
  Quit DiskNumber PartNumber Path.

(** ** The kernel services

    The services [NtOpenFile], [NtQueryInformationFile],
    [NtCreateSection], [NtMapViewOfSection], [NtUnmapViewOfSection] and
    [NtClose] and the constants passed to them are declared in headers
    that are not part of the file.  The kernel keeps a table of open
    handles and the set of mapped views, and records every call it
    receives.  Whether one of the four acquiring services succeeds is
    decided by the environment [Env]; a release succeeds exactly when its
    handle or view is known. *)

Abbreviation HANDLE := Z (only parsing).
Abbreviation PVOID := Z (only parsing).
Definition NULL : Z := 0.
(** Modelled from the spec: [NtCurrentProcess()] is the pseudo handle
    [(HANDLE)-1]. *)
Definition NtCurrentProcess : HANDLE := -1.

(** Modelled from the spec: the constants of the NT headers, with the
    values of the Windows SDK. *)
Definition MAX_PATH : nat := 260.
Definition GENERIC_READ : Z := 0x80000000.
Definition SYNCHRONIZE : Z := 0x00100000.
Definition FILE_SHARE_READ : Z := 0x00000001.
Definition FILE_SHARE_WRITE : Z := 0x00000002.
Definition FILE_SYNCHRONOUS_IO_NONALERT : Z := 0x00000020.
Definition FILE_NON_DIRECTORY_FILE : Z := 0x00000040.
Definition OBJ_CASE_INSENSITIVE : Z := 0x00000040.
Definition SECTION_MAP_READ : Z := 0x0004.
Definition PAGE_READONLY : Z := 0x02.
Definition SEC_COMMIT : Z := 0x8000000.
Definition ViewShare : Z := 1.
Definition FileStandardInformation : Z := 5.

(** A [LARGE_INTEGER] is its 64-bit signed [QuadPart]; [LowPart] is the
    unsigned low half and [HighPart] the signed high half. *)
Abbreviation LARGE_INTEGER := Z (only parsing).
Definition LowPart (q : LARGE_INTEGER) : ULONG := Z.land q 0xFFFFFFFF.
Definition HighPart (q : LARGE_INTEGER) : Z := Z.shiftr q 32.

(** Modelled from the spec: a call of a kernel service with the
    arguments that matter here. *)
Inductive Call :=
| CallNtOpenFile (DesiredAccess : Z) (ObjectName : list WCHAR) (Attributes : Z)
    (RootDirectory : HANDLE) (ShareAccess OpenOptions : Z)
| CallNtQueryInformationFile (FileHandle : HANDLE) (FileInformationClass : Z)
| CallNtCreateSection (DesiredAccess SectionPageProtection AllocationAttributes : Z)
    (FileHandle : HANDLE)
| CallNtMapViewOfSection (SectionHandle ProcessHandle : HANDLE) (BaseAddress : PVOID)
    (ViewSize InheritDisposition Win32Protect : Z)
| CallNtUnmapViewOfSection (ProcessHandle : HANDLE) (BaseAddress : PVOID)
| CallNtClose (Handle : HANDLE).

(** Modelled from the spec: the kernel object namespace service, as far
    as the file uses it. *)
Record Kernel := mkKernel {
  handles : list HANDLE;
  views : list PVOID;
  calls : list Call
}.

(** Modelled from the spec: the statuses the acquiring services return
    and the byte count the file system reports; and the cells of the
    local array [FullName] at entry, which C leaves uninitialised. *)
Record Env := mkEnv {
  FullName_at_entry : list WCHAR;
  open_status : NTSTATUS;
  query_status : NTSTATUS;
  EndOfFile : LARGE_INTEGER;
  section_status : NTSTATUS;
  map_status : NTSTATUS
}.

(** Code that calls the kernel: a state transformer on [Kernel]. *)
Definition Sys (A : Type) : Type := Kernel → A * Kernel.

Definition sys_ret {A} (a : A) : Sys A := λ k, (a, k).
Definition sys_bind {A B} (m : Sys A) (f : A → Sys B) : Sys B :=
  λ k, let '(a, k') := m k in f a k'.

Declare Scope sys_scope.
Delimit Scope sys_scope with sys.
Notation "x <- m ;; f" := (sys_bind m (λ x, f))
  (at level 20, m at level 99, f at level 200, only parsing) : sys_scope.
Notation "' p <- m ;; f" := (sys_bind m (λ x, match x with p => f end))
  (at level 20, p pattern, m at level 99, f at level 200, only parsing) : sys_scope.
Notation "m ;; f" := (sys_bind m (λ _, f))
  (at level 100, f at level 200, right associativity, only parsing) : sys_scope.

Definition record (c : Call) : Sys unit :=
  λ k, (tt, mkKernel (handles k) (views k) (calls k ++ [c])).

(** A value that is neither [NULL] nor in use. *)
Definition unused (used : list Z) : Z := 1 + foldr Z.max 0 used.

Definition is_open (h : Z) (l : list Z) : bool := existsb (Z.eqb h) l.
Definition release (h : Z) (l : list Z) : list Z := filter (λ x, x ≠ h) l.

(** Modelled from the spec: [RtlStringCchCopyW] of ntstrsafe.h, the
    bounded copy to the start of the destination. *)
Definition RtlStringCchCopyW (m : Buffer) (cchDest : nat) (pszSrc : PCWSTR)
  : option (NTSTATUS * Buffer) :=
  if Z.of_nat cchDest >? NTSTRSAFE_MAX_CCH then Some (STATUS_INVALID_PARAMETER, m)
  else RtlStringCopyWorkerW m 0 cchDest pszSrc.

(** The buffer after a string function whose status the caller drops. *)
Definition buffer_after (m : Buffer) (r : option (NTSTATUS * Buffer)) : Buffer :=
  match r with Some (_, m') => m' | None => m end.

(** The local array [FullName], [MAX_PATH] cells with the contents
    [at_entry], after the copy of [PathName] and the call of
    [ConcatPaths], both of which the code calls without looking at their
    status. *)
Definition FullName (at_entry : Buffer) (PathName FileName : option PCWSTR) : Buffer :=
  let FullName := take MAX_PATH at_entry in
  let FullName :=
    match PathName with
    | Some PathName => buffer_after FullName (RtlStringCchCopyW FullName MAX_PATH PathName)
    | None => <[O:=UNICODE_NULL]> FullName
    end in
  match FileName with
  | Some FileName => buffer_after FullName (ConcatPaths FullName MAX_PATH (Some FileName))
  | None => FullName
  end.

(** What the caller finds at return.  [BaseAddress] and [FileSize] are
    [None] as long as the function has not stored to them. *)
Record Mapped := mkMapped {
  Status : NTSTATUS;
  FileHandle : HANDLE;
  SectionHandle : HANDLE;
  BaseAddress : option PVOID;
  FileSize : option ULONG
}.

Section Services.
Variable env : Env.

(** Modelled from the spec: [NtOpenFile].  Each service takes the current
    contents of its output cell and returns the status with the contents
    at return; a successful open adds a handle that was not in use. *)
Definition NtOpenFile (FileHandle : HANDLE) (DesiredAccess : Z) (ObjectName : list WCHAR)
    (Attributes : Z) (RootDirectory : HANDLE) (ShareAccess OpenOptions : Z)
  : Sys (NTSTATUS * HANDLE) :=
  (record (CallNtOpenFile DesiredAccess ObjectName Attributes RootDirectory
                          ShareAccess OpenOptions) ;;
   λ k, if NT_SUCCESS (open_status env)
        then let h := unused (handles k) in
             ((open_status env, h), mkKernel (h :: handles k) (views k) (calls k))
        else ((open_status env, FileHandle), k))%sys.

(** Modelled from the spec: [NtQueryInformationFile] for the standard
    information, of which the code reads [EndOfFile]. *)
Definition NtQueryInformationFile (FileHandle : HANDLE) (FileInformationClass : Z)
  : Sys (NTSTATUS * LARGE_INTEGER) :=
  (record (CallNtQueryInformationFile FileHandle FileInformationClass) ;;
   sys_ret (query_status env, EndOfFile env))%sys.

(** Modelled from the spec: [NtCreateSection]; a successful call adds a
    section handle that was not in use. *)
Definition NtCreateSection (SectionHandle : HANDLE)
    (DesiredAccess SectionPageProtection AllocationAttributes : Z) (FileHandle : HANDLE)
  : Sys (NTSTATUS * HANDLE) :=
  (record (CallNtCreateSection DesiredAccess SectionPageProtection
                               AllocationAttributes FileHandle) ;;
   λ k, if NT_SUCCESS (section_status env)
        then let h := unused (handles k) in
             ((section_status env, h), mkKernel (h :: handles k) (views k) (calls k))
        else ((section_status env, SectionHandle), k))%sys.

(** Modelled from the spec: [NtMapViewOfSection]; a successful call adds
    a view at a base address that was not in use. *)
Definition NtMapViewOfSection (SectionHandle ProcessHandle : HANDLE) (BaseAddress : PVOID)
    (ViewSize InheritDisposition Win32Protect : Z)
  : Sys (NTSTATUS * PVOID) :=
  (record (CallNtMapViewOfSection SectionHandle ProcessHandle BaseAddress
                                  ViewSize InheritDisposition Win32Protect) ;;
   λ k, if NT_SUCCESS (map_status env)
        then let b := unused (views k) in
             ((map_status env, b), mkKernel (handles k) (b :: views k) (calls k))
        else ((map_status env, BaseAddress), k))%sys.

(** Modelled from the spec: [NtUnmapViewOfSection] removes a mapped view
    and fails for an address that is not one. *)
Definition NtUnmapViewOfSection (ProcessHandle : HANDLE) (BaseAddress : PVOID)
  : Sys NTSTATUS :=
  (record (CallNtUnmapViewOfSection ProcessHandle BaseAddress) ;;
   λ k, if is_open BaseAddress (views k)
        then (STATUS_SUCCESS, mkKernel (handles k) (release BaseAddress (views k)) (calls k))
        else (STATUS_NOT_MAPPED_VIEW, k))%sys.

(** Modelled from the spec: [NtClose] removes an open handle and fails
    for a value that is not one. *)
Definition NtClose (Handle : HANDLE) : Sys NTSTATUS :=
  (record (CallNtClose Handle) ;;
   λ k, if is_open Handle (handles k)
        then (STATUS_SUCCESS, mkKernel (release Handle (handles k)) (views k) (calls k))
        else (STATUS_INVALID_HANDLE, k))%sys.

(** ** OpenAndMapFile *)

(** [HaveFileSize] tells whether the optional [FileSize] pointer was
    passed. *)
Definition OpenAndMapFile (RootDirectory : HANDLE) (PathName FileName : option PCWSTR)
    (HaveFileSize : bool) : Sys Mapped :=
  (let Name := cstr (FullName (FullName_at_entry env) PathName FileName) in
   let FileHandle := NULL in
   let SectionHandle := NULL in
   '(Status, FileHandle) <-
      NtOpenFile FileHandle (Z.lor GENERIC_READ SYNCHRONIZE) Name OBJ_CASE_INSENSITIVE
                 RootDirectory FILE_SHARE_READ
                 (Z.lor FILE_SYNCHRONOUS_IO_NONALERT FILE_NON_DIRECTORY_FILE) ;;
   if negb (NT_SUCCESS Status)
   then sys_ret (mkMapped Status FileHandle SectionHandle None None)
   else
     (* the code from the comment "Map the file in memory" on *)
     let MapTheFile (FileSize : option ULONG) : Sys Mapped :=
       '(Status, SectionHandle) <-
          NtCreateSection SectionHandle SECTION_MAP_READ PAGE_READONLY SEC_COMMIT
                          FileHandle ;;
       if negb (NT_SUCCESS Status)
       then NtClose FileHandle ;;
            sys_ret (mkMapped Status NULL SectionHandle None FileSize)
       else
         let ViewSize := 0 in
         let ViewBase := NULL in
         '(Status, ViewBase) <-
            NtMapViewOfSection SectionHandle NtCurrentProcess ViewBase ViewSize
                               ViewShare PAGE_READONLY ;;
         if negb (NT_SUCCESS Status)
         then NtClose SectionHandle ;;
              NtClose FileHandle ;;
              sys_ret (mkMapped Status NULL NULL None FileSize)
         else sys_ret (mkMapped STATUS_SUCCESS FileHandle SectionHandle
                                (Some ViewBase) FileSize) in
     if HaveFileSize then
       '(Status, FileInfo) <- NtQueryInformationFile FileHandle FileStandardInformation ;;
       if negb (NT_SUCCESS Status)
       then NtClose FileHandle ;;
            sys_ret (mkMapped Status NULL SectionHandle None None)
       else
         (* a non-zero HighPart is only reported on the debug output *)
         MapTheFile (Some (LowPart FileInfo))
     else MapTheFile None)%sys.

(** ** UnMapFile *)

Definition UnMapFile (SectionHandle : HANDLE) (BaseAddress : PVOID) : Sys BOOLEAN :=
  (let Success := TRUE in
   Status <- NtUnmapViewOfSection NtCurrentProcess BaseAddress ;;
   let Success := if negb (NT_SUCCESS Status) then FALSE else Success in
   Status <- NtClose SectionHandle ;;
   let Success := if negb (NT_SUCCESS Status) then FALSE else Success in
   sys_ret Success)%sys.

End Services.

(** The resources a kernel state holds: open handles and mapped views. *)
Definition resources (k : Kernel) : nat := (length (handles k) + length (views k))%nat.

Definition boot : Kernel := mkKernel [] [] [].

(** ** The join of the specification

    The separator policy in the words of the specification, on the
    characters of the base and of the addition: the string [join] is what
    the buffer is meant to hold after the call. *)

Definition starts_with_separator (addition : list WCHAR) : bool :=
  deref addition =? OBJ_NAME_PATH_SEPARATOR.

Definition ends_with_separator (base : list WCHAR) : bool :=
  List.last base UNICODE_NULL =? OBJ_NAME_PATH_SEPARATOR.

Definition join_tail (base addition : list WCHAR) : list WCHAR :=
  if negb (starts_with_separator addition) && (0 <? length base)%nat
     && negb (ends_with_separator base)
  then OBJ_NAME_PATH_SEPARATOR :: addition
  else if starts_with_separator addition && ends_with_separator base
  then skip_backslash addition
  else addition.

Definition join (base addition : list WCHAR) : list WCHAR :=
  base ++ join_tail base addition.

(** A buffer holds the string [base] when its cells are the characters of
    [base], none of them NUL, the terminator, and then anything. *)
Definition holds (base : list WCHAR) (rest : list WCHAR) : Buffer :=
  base ++ UNICODE_NULL :: rest.

Definition no_nul (s : list WCHAR) : Prop := Forall (λ c, c ≠ UNICODE_NULL) s.

(** ** DoesPathExist and DoesFileExist *)

(** Modelled from the spec: two more constants of the NT headers, with the
    values of the Windows SDK. *)
Definition FILE_LIST_DIRECTORY : Z := 0x0001.
Definition FILE_DIRECTORY_FILE : Z := 0x00000001.

(** Modelled from the spec: [RtlInitUnicodeString] makes a counted string
    of the characters up to the terminator; its 16-bit byte length holds
    at most 32766 characters. *)
Definition RtlInitUnicodeString (SourceString : PCWSTR) : list WCHAR :=
  take (Z.to_nat 32766) (cstr SourceString).

Section Probes.
Variable env : Env.

(** The local [FileHandle] is not initialised; its value matters only
    after a successful open, which stores to it. *)
Definition DoesPathExist (RootDirectory : HANDLE) (PathName : PCWSTR) : Sys BOOLEAN :=
  (let FileHandle := NULL in
   let Name := RtlInitUnicodeString PathName in
   '(Status, FileHandle) <-
      NtOpenFile env FileHandle (Z.lor FILE_LIST_DIRECTORY SYNCHRONIZE) Name
                 OBJ_CASE_INSENSITIVE RootDirectory
                 (Z.lor FILE_SHARE_READ FILE_SHARE_WRITE)
                 (Z.lor FILE_SYNCHRONOUS_IO_NONALERT FILE_DIRECTORY_FILE) ;;
   if NT_SUCCESS Status
   then NtClose FileHandle ;; sys_ret (NT_SUCCESS Status)
   else sys_ret (NT_SUCCESS Status))%sys.

Definition DoesFileExist (RootDirectory : HANDLE) (PathName FileName : option PCWSTR)
  : Sys BOOLEAN :=
  (let FileHandle := NULL in
   let Name := RtlInitUnicodeString (FullName (FullName_at_entry env) PathName FileName) in
   '(Status, FileHandle) <-
      NtOpenFile env FileHandle (Z.lor GENERIC_READ SYNCHRONIZE) Name
                 OBJ_CASE_INSENSITIVE RootDirectory
                 (Z.lor FILE_SHARE_READ FILE_SHARE_WRITE)
                 (Z.lor FILE_SYNCHRONOUS_IO_NONALERT FILE_NON_DIRECTORY_FILE) ;;
   if NT_SUCCESS Status
   then NtClose FileHandle ;; sys_ret (NT_SUCCESS Status)
   else sys_ret (NT_SUCCESS Status))%sys.

End Probes.

(** The name the path functions build in [FullName], in the words of the
    code: the directory cut to what the array takes, joined with the file
    name, cut again. *)
Definition built_name (PathName FileName : option PCWSTR) : list WCHAR :=
  let room := (MAX_PATH - 1)%nat in
  let dir := match PathName with Some d => take room (cstr d) | None => [] end in
  match FileName with
  | Some f => take room (join dir (cstr f))
  | None => dir
  end.

Definition is_query_call (c : Call) : bool :=
  match c with CallNtQueryInformationFile _ _ => true | _ => false end.

Definition is_close_call (c : Call) : bool :=
  match c with CallNtClose _ => true | _ => false end.

(** ** The calls of OpenAndMapFile

    The service calls in the order of the source, with the arguments the
    source passes; [file] and [section] are the handles the kernel hands
    out. *)

Definition open_call (env : Env) (RootDirectory : HANDLE)
    (PathName FileName : option PCWSTR) : Call :=
  CallNtOpenFile (Z.lor GENERIC_READ SYNCHRONIZE)
    (cstr (FullName (FullName_at_entry env) PathName FileName))
    OBJ_CASE_INSENSITIVE RootDirectory FILE_SHARE_READ
    (Z.lor FILE_SYNCHRONOUS_IO_NONALERT FILE_NON_DIRECTORY_FILE).

Definition query_calls (HaveFileSize : bool) (file : HANDLE) : list Call :=
  if HaveFileSize then [CallNtQueryInformationFile file FileStandardInformation] else [].

Definition section_call (file : HANDLE) : Call :=
  CallNtCreateSection SECTION_MAP_READ PAGE_READONLY SEC_COMMIT file.

Definition map_call (section : HANDLE) : Call :=
  CallNtMapViewOfSection section NtCurrentProcess NULL 0 ViewShare PAGE_READONLY.

(** ** Environments used in the examples *)

(** What a debug build leaves in a local array of [MAX_PATH] cells. *)
Definition garbage : list WCHAR := replicate MAX_PATH 0xCCCC.

(** Every service succeeds and the file has [size] bytes. *)
Definition all_ok (size : LARGE_INTEGER) : Env :=
  mkEnv garbage STATUS_SUCCESS STATUS_SUCCESS size STATUS_SUCCESS STATUS_SUCCESS.

Definition STATUS_NO_MEMORY : NTSTATUS := ntstatus 0xC0000017.

(** Only the mapping of the view fails. *)
Definition map_fails : Env :=
  mkEnv garbage STATUS_SUCCESS STATUS_SUCCESS 1000 STATUS_SUCCESS STATUS_NO_MEMORY.

(** A file of 2^32 + 5 bytes. *)
Definition large_file : Env := all_ok 4294967301.

Definition is_open_call (c : Call) : bool :=
  match c with CallNtOpenFile _ _ _ _ _ _ => true | _ => false end.

(** ** The locator grammar of the specification

    The pieces of [\Device\Harddisk<N>[\Partition<M>][\<rest>]] in the
    words of the specification: a literal matched without regard to case,
    a run of decimal digits, and its value. *)

Fixpoint starts_with_literal (literal input : list WCHAR) : bool :=
  match literal, input with
  | [], _ => true
  | _ :: _, [] => false
  | l :: literal', c :: input' =>
      (towlower c =? towlower l) && starts_with_literal literal' input'
  end.

(** The leading run of decimal digits and what follows it. *)
Fixpoint leading_digits (input : list WCHAR) : list WCHAR :=
  match input with
  | c :: input' => if iswdigit c then c :: leading_digits input' else []
  | [] => []
  end.

Fixpoint skip_digits (input : list WCHAR) : list WCHAR :=
  match input with
  | c :: input' => if iswdigit c then skip_digits input' else input
  | [] => []
  end.

(** The number a run of decimal digits denotes, continuing from [acc]. *)
Definition decimal_from (acc : Z) (digits : list WCHAR) : Z :=
  fold_left (λ a c, a * 10 + (c - 48)) digits acc.

Definition decimal (digits : list WCHAR) : Z := decimal_from 0 digits.

Example ConcatPaths_ex1 :
  ConcatPaths (L "a" ++ [0; 7; 7; 7]) 5 (Some (L "b")) = Some (STATUS_SUCCESS, L "a\b" ++ [0; 7]).
Proof. reflexivity. Qed.

Example ConcatPaths_ex2 :
  ConcatPaths (L "a\" ++ [0; 7; 7; 7]) 5 (Some (L "\\b")) = Some (STATUS_SUCCESS, L "a\b" ++ [0; 7; 7]).
Proof. reflexivity. Qed.

Example ConcatPaths_ex3 :
  ConcatPaths (L "ab" ++ [0; 7; 7; 7]) 5 (Some (L "cde"))
  = Some (STATUS_BUFFER_OVERFLOW, L "ab\c" ++ [0; 7]).
Proof. reflexivity. Qed.

Example NtPath_ex1 :
  NtPathToDiskPartComponents (L "\Device\Harddisk1\Partition2\foo") true
  = {| ret := TRUE; pDiskNumber := 1; pPartNumber := 2; PathComponent := Some (L "\foo") |}.
Proof. reflexivity. Qed.

Example NtPath_ex2 :
  NtPathToDiskPartComponents (L "\device\HARDDISK12") true
  = {| ret := TRUE; pDiskNumber := 12; pPartNumber := 0; PathComponent := Some [] |}.
Proof. reflexivity. Qed.

Example NtPath_ex3 :
  NtPathToDiskPartComponents (L "\Device\Harddisk3\Partition") true
  = {| ret := TRUE; pDiskNumber := 3; pPartNumber := 0; PathComponent := Some [] |}.
Proof. reflexivity. Qed.

Example NtPath_ex4 :
  NtPathToDiskPartComponents (L "\Device\Harddisk0x") true
  = {| ret := FALSE; pDiskNumber := 0; pPartNumber := 0; PathComponent := None |}.
Proof. reflexivity. Qed.

Example NtPath_ex5 :
  NtPathToDiskPartComponents (L "\Device\Harddisk99999999999\Partition7x\y") true
  = {| ret := TRUE; pDiskNumber := ULONG_MAX; pPartNumber := 0; PathComponent := Some (L "x\y") |}.
Proof. reflexivity. Qed.

Example OpenAndMapFile_ex1 :
  OpenAndMapFile (all_ok 1000) NULL (Some (L "\SystemRoot")) (Some (L "txtsetup.sif")) true boot
  = (mkMapped STATUS_SUCCESS 1 2 (Some 1) (Some 1000),
     mkKernel [2; 1] [1]
       [CallNtOpenFile 0x80100000 (L "\SystemRoot\txtsetup.sif") 0x40 0 1 0x60;
        CallNtQueryInformationFile 1 5;
        CallNtCreateSection 4 2 0x8000000 1;
        CallNtMapViewOfSection 2 (-1) 0 0 1 2]).
Proof. vm_compute. reflexivity. Qed.

(** ** Strings and buffers *)

Lemma cstr_no_nul (p : PCWSTR) : no_nul (cstr p).
Proof.
  induction p as [|c p IH]; simpl; [constructor|].
  destruct (Z.eqb_spec c UNICODE_NULL); [constructor|].
  constructor; assumption.
Qed.

Lemma cstr_id (s : list WCHAR) : no_nul s → cstr s = s.
Proof.
  induction 1 as [|c s Hc _ IH]; simpl; [reflexivity|].
  destruct (Z.eqb_spec c UNICODE_NULL); congruence.
Qed.

Lemma deref_cstr (p : PCWSTR) : deref (cstr p) = deref p.
Proof.
  destruct p as [|c p]; simpl; [reflexivity|].
  destruct (Z.eqb_spec c UNICODE_NULL); simpl; congruence.
Qed.

Lemma cstr_skip_backslash (p : PCWSTR) :
  cstr (skip_backslash p) = skip_backslash (cstr p).
Proof.
  induction p as [|c p IH]; simpl; [reflexivity|].
  destruct (Z.eqb_spec c OBJ_NAME_PATH_SEPARATOR) as [->|Hc]; simpl.
  - exact IH.
  - destruct (Z.eqb_spec c UNICODE_NULL); simpl; [reflexivity|].
    destruct (Z.eqb_spec c OBJ_NAME_PATH_SEPARATOR); congruence.
Qed.

Lemma wcslen_holds (base rest : list WCHAR) :
  no_nul base → wcslen (holds base rest) = Some (length base).
Proof.
  unfold holds. induction 1 as [|c s Hc _ IH]; simpl; [reflexivity|].
  destruct (Z.eqb_spec c UNICODE_NULL); [congruence|].
  rewrite IH. reflexivity.
Qed.

Lemma load_last (base rest : list WCHAR) :
  base ≠ [] →
  load (holds base rest) (length base - 1) = Some (List.last base UNICODE_NULL).
Proof.
  destruct base as [|c s _] using rev_ind; [congruence|intros _].
  unfold load, holds. rewrite List.last_last, length_app. simpl.
  rewrite <- app_assoc. simpl. apply list_lookup_middle. lia.
Qed.

(** ** The workers of the bounded concatenation *)

Lemma load_middle (pre : list WCHAR) (c : WCHAR) (rest : list WCHAR) :
  load (pre ++ c :: rest) (length pre) = Some c.
Proof. unfold load. apply list_lookup_middle. reflexivity. Qed.

Lemma RtlStringLengthWorkerW_loop_holds (base rest pre : list WCHAR) (cchMax : nat) :
  no_nul base →
  RtlStringLengthWorkerW_loop (pre ++ holds base rest) (length pre) cchMax
  = Some (cchMax - length base)%nat.
Proof.
  intros Hb. revert pre cchMax.
  induction Hb as [|c s Hc _ IH]; intros pre cchMax.
  - destruct cchMax as [|n]; [reflexivity|].
    change (holds [] rest) with (UNICODE_NULL :: rest).
    cbn [RtlStringLengthWorkerW_loop]. rewrite load_middle. reflexivity.
  - destruct cchMax as [|n]; [reflexivity|].
    change (holds (c :: s) rest) with (c :: holds s rest).
    cbn [RtlStringLengthWorkerW_loop]. rewrite load_middle. cbn [mbind option_bind].
    destruct (Z.eqb_spec c UNICODE_NULL); [congruence|].
    specialize (IH (pre ++ [c]) n).
    rewrite length_app in IH. simpl in IH.
    replace (length pre + 1)%nat with (S (length pre)) in IH by lia.
    rewrite <- app_assoc in IH. exact IH.
Qed.

Lemma RtlStringLengthWorkerW_holds (base rest : list WCHAR) (cchMax : nat) :
  no_nul base →
  RtlStringLengthWorkerW (holds base rest) 0 cchMax
  = Some (if (length base <? cchMax)%nat then (STATUS_SUCCESS, length base)
          else (STATUS_INVALID_PARAMETER, O)).
Proof.
  intros Hb. unfold RtlStringLengthWorkerW.
  pose proof (RtlStringLengthWorkerW_loop_holds base rest [] cchMax Hb) as H.
  cbn [app length] in H. rewrite H. cbn [mbind option_bind].
  destruct (Nat.ltb_spec (length base) cchMax);
    destruct (Nat.eqb_spec (cchMax - length base) 0); try lia; [|reflexivity].
  do 3 f_equal. lia.
Qed.

Lemma store_inside (m : Buffer) (i : nat) (v : WCHAR) :
  (i < length m)%nat → store m i v = Some (take i m ++ v :: drop (S i) m).
Proof.
  intros Hi. unfold store.
  destruct (Nat.ltb_spec i (length m)); [|lia].
  rewrite insert_take_drop by lia. reflexivity.
Qed.

Lemma splice_take (m : Buffer) (d : nat) (c : WCHAR) :
  (d < length m)%nat → take (S d) (take d m ++ c :: drop (S d) m) = take d m ++ [c].
Proof.
  intros Hd. rewrite take_app_ge by (rewrite length_take; lia).
  rewrite length_take. replace (S d - Nat.min d (length m))%nat with 1%nat by lia.
  reflexivity.
Qed.

Lemma splice_drop (m : Buffer) (d k : nat) (c : WCHAR) :
  (d < length m)%nat →
  drop (S d + k) (take d m ++ c :: drop (S d) m) = drop (S d + k) m.
Proof.
  intros Hd. rewrite drop_app_ge by (rewrite length_take; lia).
  rewrite length_take. replace (S d + k - Nat.min d (length m))%nat with (S k) by lia.
  cbn [drop]. rewrite drop_drop. reflexivity.
Qed.

Lemma RtlStringCopyWorkerW_loop_spec (pszSrc : PCWSTR) (m : Buffer) (pszDest cchDest : nat) :
  (pszDest + cchDest ≤ length m)%nat →
  let copied := Nat.min cchDest (length (cstr pszSrc)) in
  RtlStringCopyWorkerW_loop m pszDest cchDest pszSrc
  = Some (take pszDest m ++ take cchDest (cstr pszSrc) ++ drop (pszDest + copied) m,
          (pszDest + copied)%nat, (cchDest - copied)%nat).
Proof.
  revert m pszDest cchDest.
  induction pszSrc as [|c src IH]; intros m d n Hn; cbn zeta.
  - cbn [RtlStringCopyWorkerW_loop cstr length]. rewrite Nat.min_0_r, take_nil.
    rewrite Nat.add_0_r, Nat.sub_0_r. cbn [app]. rewrite take_drop. reflexivity.
  - cbn [RtlStringCopyWorkerW_loop cstr].
    destruct (Z.eqb_spec c UNICODE_NULL) as [->|Hc].
    { rewrite orb_true_r. cbn [length].
      rewrite Nat.min_0_r, take_nil, Nat.add_0_r, Nat.sub_0_r.
      cbn [app]. rewrite take_drop. reflexivity. }
    rewrite orb_false_r.
    destruct (Nat.eqb_spec n 0) as [->|Hn0].
    { cbn [Nat.min take app]. rewrite Nat.add_0_r, take_drop. reflexivity. }
    rewrite store_inside by lia. cbn [mbind option_bind].
    rewrite IH by (rewrite length_app, length_take; cbn [length]; rewrite length_drop; lia).
    destruct n as [|n']; [lia|]. cbn [length Nat.min take].
    rewrite splice_take, splice_drop by lia. rewrite <- app_assoc. cbn [app].
    replace (S n' - 1)%nat with n' by lia.
    replace (d + S (Nat.min n' (length (cstr src))))%nat
      with (S d + Nat.min n' (length (cstr src)))%nat by lia.
    reflexivity.
Qed.

Lemma RtlStringCopyWorkerW_spec (pszSrc : PCWSTR) (m : Buffer) (pszDest cchDest : nat) :
  (0 < cchDest)%nat → (pszDest + cchDest ≤ length m)%nat →
  let s := cstr pszSrc in
  RtlStringCopyWorkerW m pszDest cchDest pszSrc
  = Some (if (length s <? cchDest)%nat then STATUS_SUCCESS else STATUS_BUFFER_OVERFLOW,
          take pszDest m ++ take (cchDest - 1) s
            ++ UNICODE_NULL :: drop (pszDest + Nat.min (cchDest - 1) (length s) + 1) m).
Proof.
  intros Hpos Hn s. unfold RtlStringCopyWorkerW.
  destruct (Nat.eqb_spec cchDest 0); [lia|].
  rewrite RtlStringCopyWorkerW_loop_spec by lia. fold s. cbn [mbind option_bind].
  assert (Hlen : length (take pszDest m ++ take cchDest s
                         ++ drop (pszDest + Nat.min cchDest (length s)) m) = length m).
  { rewrite !length_app, !length_take, length_drop. lia. }
  destruct (Nat.ltb_spec (length s) cchDest) as [Hfit|Hover].
  - destruct (Nat.eqb_spec (cchDest - Nat.min cchDest (length s)) 0); [lia|].
    rewrite store_inside by lia. cbn [mbind option_bind]. do 2 f_equal.
    rewrite !take_ge with (l := s) by lia.
    replace (Nat.min cchDest (length s)) with (length s) by lia.
    replace (Nat.min (cchDest - 1) (length s)) with (length s) by lia.
    rewrite app_assoc.
    rewrite take_app_length' by (rewrite length_app, length_take; lia).
    rewrite drop_app_ge by (rewrite length_app, length_take; lia).
    rewrite length_app, length_take.
    replace (S (pszDest + length s) - (Nat.min pszDest (length m) + length s))%nat
      with 1%nat by lia.
    rewrite drop_drop, <- app_assoc. reflexivity.
  - destruct (Nat.eqb_spec (cchDest - Nat.min cchDest (length s)) 0); [|lia].
    rewrite store_inside by lia. cbn [mbind option_bind]. do 2 f_equal.
    replace (Nat.min cchDest (length s)) with cchDest by lia.
    replace (Nat.min (cchDest - 1) (length s)) with (cchDest - 1)%nat by lia.
    replace (pszDest + cchDest - 1)%nat with (pszDest + (cchDest - 1))%nat by lia.
    rewrite app_assoc.
    rewrite take_app_le by (rewrite length_app, !length_take; lia).
    rewrite take_app_ge by (rewrite length_take; lia).
    rewrite length_take, take_take, <- app_assoc.
    replace (pszDest + (cchDest - 1) - Nat.min pszDest (length m))%nat
      with (cchDest - 1)%nat by lia.
    replace (Nat.min (cchDest - 1) cchDest) with (cchDest - 1)%nat by lia.
    do 3 f_equal.
    rewrite drop_app_ge by (rewrite length_app, !length_take; lia).
    rewrite length_app, !length_take, drop_drop. f_equal. lia.
Qed.

Lemma length_holds (base rest : list WCHAR) :
  length (holds base rest) = (length base + S (length rest))%nat.
Proof. unfold holds. rewrite length_app. reflexivity. Qed.

Lemma RtlStringCchCatW_holds (base rest : list WCHAR) (cchDest : nat) (pszSrc : PCWSTR) :
  no_nul base → (length base < cchDest)%nat →
  (cchDest ≤ length (holds base rest))%nat → Z.of_nat cchDest ≤ NTSTRSAFE_MAX_CCH →
  let s := cstr pszSrc in
  let room := (cchDest - 1 - length base)%nat in
  RtlStringCchCatW (holds base rest) cchDest pszSrc
  = Some (if (length s <=? room)%nat then STATUS_SUCCESS else STATUS_BUFFER_OVERFLOW,
          holds (base ++ take room s) (drop (Nat.min room (length s)) rest)).
Proof.
  intros Hb Hlt Hcap Hmax s room. unfold RtlStringCchCatW, RtlStringCatWorkerW.
  destruct (Z.gtb_spec (Z.of_nat cchDest) NTSTRSAFE_MAX_CCH); [lia|].
  rewrite RtlStringLengthWorkerW_holds by assumption.
  destruct (Nat.ltb_spec (length base) cchDest); [|lia].
  cbn [mbind option_bind]. change (NT_SUCCESS STATUS_SUCCESS) with true. cbn iota.
  rewrite length_holds in Hcap.
  rewrite RtlStringCopyWorkerW_spec by (rewrite ?length_holds; lia). fold s.
  replace (cchDest - length base - 1)%nat with room by lia.
  f_equal. f_equal.
  - destruct (Nat.ltb_spec (length s) (cchDest - length base));
      destruct (Nat.leb_spec (length s) room); solve [reflexivity | lia].
  - unfold holds. rewrite take_app_length, <- app_assoc. do 3 f_equal.
    rewrite drop_app_ge by lia.
    replace (length base + Nat.min room (length s) + 1 - length base)%nat
      with (S (Nat.min room (length s))) by lia.
    reflexivity.
Qed.

Lemma RtlStringCchCatW_unfit (base rest : list WCHAR) (cchDest : nat) (pszSrc : PCWSTR) :
  no_nul base → (cchDest ≤ length base)%nat ∨ NTSTRSAFE_MAX_CCH < Z.of_nat cchDest →
  RtlStringCchCatW (holds base rest) cchDest pszSrc
  = Some (STATUS_INVALID_PARAMETER, holds base rest).
Proof.
  intros Hb Hbad. unfold RtlStringCchCatW, RtlStringCatWorkerW.
  destruct (Z.gtb_spec (Z.of_nat cchDest) NTSTRSAFE_MAX_CCH); [reflexivity|].
  rewrite RtlStringLengthWorkerW_holds by assumption.
  destruct (Nat.ltb_spec (length base) cchDest); [lia|]. reflexivity.
Qed.

Lemma no_nul_app (s t : list WCHAR) : no_nul s → no_nul t → no_nul (s ++ t).
Proof. apply Forall_app_2. Qed.

Lemma no_nul_take (n : nat) (s : list WCHAR) : no_nul s → no_nul (take n s).
Proof. apply Forall_take. Qed.

(** ** ConcatPaths refines the join of the specification *)

Lemma ConcatPaths_holds (base rest : list WCHAR) (cchPathSize : nat) (PathElem2 : PCWSTR) :
  no_nul base → (1 < cchPathSize)%nat → (length base < cchPathSize)%nat →
  (cchPathSize ≤ length (holds base rest))%nat →
  Z.of_nat cchPathSize ≤ NTSTRSAFE_MAX_CCH →
  let tail := join_tail base (cstr PathElem2) in
  let room := (cchPathSize - 1 - length base)%nat in
  ConcatPaths (holds base rest) cchPathSize (Some PathElem2)
  = Some (if (length tail <=? room)%nat then STATUS_SUCCESS else STATUS_BUFFER_OVERFLOW,
          holds (base ++ take room tail) (drop (Nat.min room (length tail)) rest)).
Proof.
  intros Hb H1 Hlt Hcap Hmax tail room. unfold ConcatPaths.
  destruct (Nat.leb_spec cchPathSize 1); [lia|].
  rewrite wcslen_holds by assumption. cbn [mbind option_bind].
  replace (Nat.min cchPathSize (length base)) with (length base) by lia.
  subst tail. unfold join_tail, starts_with_separator, ends_with_separator.
  rewrite deref_cstr.
  destruct (decide (base = [])) as [->|Hne].
  { change (0 <? length (@nil Z))%nat with false.
    change (List.last [] UNICODE_NULL =? OBJ_NAME_PATH_SEPARATOR) with false.
    rewrite !andb_false_r. cbn [andb and_then mbind option_bind].
    apply RtlStringCchCatW_holds; assumption. }
  assert (Hpos : (0 <? length base)%nat = true).
  { apply Nat.ltb_lt. destruct base; [congruence|cbn; lia]. }
  rewrite load_last by assumption. rewrite Hpos, !andb_true_r.
  cbn [mbind option_bind fmap option_fmap option_map].
  destruct (deref PathElem2 =? OBJ_NAME_PATH_SEPARATOR) eqn:Hadd;
    destruct (List.last base UNICODE_NULL =? OBJ_NAME_PATH_SEPARATOR) eqn:Hlast;
    cbn [negb andb and_then mbind option_bind].
  - rewrite <- cstr_skip_backslash. apply RtlStringCchCatW_holds; assumption.
  - apply RtlStringCchCatW_holds; assumption.
  - apply RtlStringCchCatW_holds; assumption.
  - rewrite RtlStringCchCatW_holds by assumption. cbn [mbind option_bind].
    change (cstr [OBJ_NAME_PATH_SEPARATOR]) with [OBJ_NAME_PATH_SEPARATOR].
    cbn [length]. fold room.
    destruct room as [|room'] eqn:Hroom.
    + cbn [Nat.leb Nat.min take drop]. reflexivity.
    + cbn [Nat.leb Nat.min take drop].
      change (negb (NT_SUCCESS STATUS_SUCCESS)) with false. cbn iota.
      rewrite length_holds in Hcap. rewrite take_nil, Nat.min_0_r.
      rewrite RtlStringCchCatW_holds; cycle 1.
      * apply no_nul_app; [assumption|]. repeat constructor. discriminate.
      * rewrite length_app. cbn [length]. lia.
      * rewrite length_holds, length_app, length_drop. cbn [length]. lia.
      * assumption.
      * rewrite length_app. cbn [length].
        replace (cchPathSize - 1 - (length base + 1))%nat with room' by lia.
        rewrite <- app_assoc, drop_drop. cbn [app]. reflexivity.
Qed.

Lemma cstr_holds (base rest : list WCHAR) : no_nul base → cstr (holds base rest) = base.
Proof.
  unfold holds. induction 1 as [|c s Hc _ IH]; simpl; [reflexivity|].
  destruct (Z.eqb_spec c UNICODE_NULL); congruence.
Qed.

Lemma load_inside (m : Buffer) (i : nat) : (i < length m)%nat → ∃ c, load m i = Some c.
Proof. intros Hi. apply lookup_lt_is_Some_2. exact Hi. Qed.

(** When the base does not end inside the declared size, or the size is
    beyond what the string functions accept, nothing is written. *)
Lemma ConcatPaths_unfit (base rest : list WCHAR) (cchPathSize : nat) (PathElem2 : PCWSTR) :
  no_nul base → (1 < cchPathSize)%nat →
  (cchPathSize ≤ length base)%nat ∨ NTSTRSAFE_MAX_CCH < Z.of_nat cchPathSize →
  ConcatPaths (holds base rest) cchPathSize (Some PathElem2)
  = Some (STATUS_INVALID_PARAMETER, holds base rest).
Proof.
  intros Hb H1 Hbad. unfold ConcatPaths.
  destruct (Nat.leb_spec cchPathSize 1); [lia|].
  rewrite wcslen_holds by assumption. cbn [mbind option_bind].
  destruct (load_inside (holds base rest) (Nat.min cchPathSize (length base) - 1)) as [c Hc].
  { rewrite length_holds. lia. }
  rewrite Hc. cbn [mbind option_bind fmap option_fmap option_map].
  destruct (negb (deref PathElem2 =? OBJ_NAME_PATH_SEPARATOR)
            && (0 <? Nat.min cchPathSize (length base))%nat);
    destruct ((deref PathElem2 =? OBJ_NAME_PATH_SEPARATOR)
              && (0 <? Nat.min cchPathSize (length base))%nat);
    destruct (c =? OBJ_NAME_PATH_SEPARATOR);
    cbn [negb and_then mbind option_bind];
    rewrite RtlStringCchCatW_unfit by assumption; reflexivity.
Qed.

Lemma holds_frame (base t rest : list WCHAR) (room : nat) :
  (length t ≤ room)%nat → (room ≤ length rest)%nat →
  length (holds (base ++ t) (drop (length t) rest)) = length (holds base rest)
  ∧ drop (length base + 1 + room) (holds (base ++ t) (drop (length t) rest))
    = drop (length base + 1 + room) (holds base rest).
Proof.
  intros Ht Hroom. split.
  - rewrite !length_holds, length_app, length_drop. lia.
  - unfold holds. rewrite <- app_assoc.
    rewrite !drop_app_ge by lia.
    replace (length base + 1 + room - length base - length t)%nat
      with (S (room - length t)) by lia.
    replace (length base + 1 + room - length base)%nat with (S room) by lia.
    cbn [drop]. rewrite drop_drop. f_equal. lia.
Qed.

Lemma no_nul_skip_backslash (s : list WCHAR) : no_nul s → no_nul (skip_backslash s).
Proof.
  induction 1 as [|c s Hc Hs IH]; cbn [skip_backslash]; [constructor|].
  destruct (c =? OBJ_NAME_PATH_SEPARATOR); [exact IH|]. constructor; assumption.
Qed.

Lemma no_nul_join_tail (base addition : list WCHAR) :
  no_nul addition → no_nul (join_tail base addition).
Proof.
  intros Ha. unfold join_tail.
  destruct (negb (starts_with_separator addition) && (0 <? length base)%nat
            && negb (ends_with_separator base)).
  - constructor; [discriminate|assumption].
  - destruct (starts_with_separator addition && ends_with_separator base);
      [apply no_nul_skip_backslash|]; assumption.
Qed.

(** ** Properties of ConcatPaths *)

(** C4 (as stated, refuted): a buffer of one cell holding the empty base
    and the addition "b".  The concatenation "b" needs two cells, yet the
    call returns [STATUS_SUCCESS], not a length-exceeded status, because
    of the guard [cchPathSize <= 1]. *)
Lemma ConcatPaths_capacity_one_reports_success :
  ConcatPaths [UNICODE_NULL] 1 (Some (L "b")) = Some (STATUS_SUCCESS, [UNICODE_NULL])
  ∧ (1 ≤ length (join [] (cstr (L "b"))))%nat
  ∧ NT_SUCCESS STATUS_SUCCESS = true
  ∧ STATUS_SUCCESS ≠ STATUS_BUFFER_OVERFLOW.
Proof. repeat split; [vm_compute; lia | discriminate]. Qed.

(** C4 (amended): for every buffer that holds a NUL-terminated base and
    has at least the declared number of cells, and every addition, the
    call returns without fault, every cell from the declared size on is
    unchanged and the buffer keeps its length.  With a declared size of at
    most 1 it returns [STATUS_SUCCESS] and leaves the buffer as it was.
    With a declared size greater than 1 (and not above
    [NTSTRSAFE_MAX_CCH]) that the base fits in, the status is
    [STATUS_BUFFER_OVERFLOW] exactly when the joined string with its
    terminator exceeds the declared size, and [STATUS_SUCCESS]
    otherwise; in both cases the buffer then holds the joined string cut
    to one character less than the declared size, which is the whole
    joined string when it fits and its longest prefix that fits when it
    does not. *)
Theorem ConcatPaths_stays_within_capacity
    (base rest : list WCHAR) (cchPathSize : nat) (PathElem2 : PCWSTR) :
  no_nul base → (cchPathSize ≤ length (holds base rest))%nat →
  ∃ Status m',
    ConcatPaths (holds base rest) cchPathSize (Some PathElem2) = Some (Status, m')
    ∧ length m' = length (holds base rest)
    ∧ drop cchPathSize m' = drop cchPathSize (holds base rest)
    ∧ ((cchPathSize ≤ 1)%nat → Status = STATUS_SUCCESS ∧ m' = holds base rest)
    ∧ ((1 < cchPathSize)%nat → (length base < cchPathSize)%nat →
       Z.of_nat cchPathSize ≤ NTSTRSAFE_MAX_CCH →
       Status = (if (length (join base (cstr PathElem2)) <? cchPathSize)%nat
                 then STATUS_SUCCESS else STATUS_BUFFER_OVERFLOW)
       ∧ cstr m' = take (cchPathSize - 1) (join base (cstr PathElem2))).
Proof.
  intros Hb Hcap.
  destruct (Nat.leb_spec cchPathSize 1) as [Hle|Hgt].
  { exists STATUS_SUCCESS, (holds base rest). unfold ConcatPaths.
    destruct (Nat.leb_spec cchPathSize 1); [|lia].
    repeat split; intros; try reflexivity; lia. }
  destruct (decide ((length base < cchPathSize)%nat
                    ∧ Z.of_nat cchPathSize ≤ NTSTRSAFE_MAX_CCH)) as [[Hlt Hmax]|Hbad].
  - rewrite ConcatPaths_holds by assumption.
    set (tail := join_tail base (cstr PathElem2)).
    set (room := (cchPathSize - 1 - length base)%nat).
    rewrite length_holds in Hcap.
    destruct (holds_frame base (take room tail) rest room) as [Hlen Hdrop].
    { rewrite length_take. lia. }
    { lia. }
    rewrite length_take in Hlen, Hdrop.
    eexists _, _. split; [reflexivity|].
    split; [exact Hlen|].
    split; [replace cchPathSize with (length base + 1 + room)%nat by lia; exact Hdrop|].
    split; [lia|]. intros _ _ _. unfold join. rewrite length_app. fold tail.
    split.
    + destruct (Nat.leb_spec (length tail) room);
        destruct (Nat.ltb_spec (length base + length tail) cchPathSize);
        solve [reflexivity | lia].
    + rewrite cstr_holds
        by (apply no_nul_app; [assumption|];
            apply no_nul_take, no_nul_join_tail, cstr_no_nul).
      rewrite take_app, (take_ge base) by lia. reflexivity.
  - rewrite ConcatPaths_unfit by (assumption || lia).
    eexists _, _. split; [reflexivity|].
    repeat split; intros; try reflexivity; lia.
Qed.

Lemma ConcatPaths_stays_within_capacity_witness :
  ∃ Status m',
    ConcatPaths (holds (L "ab") [7; 7; 7]) 5 (Some (L "cde")) = Some (Status, m')
    ∧ length m' = length (holds (L "ab") [7; 7; 7])
    ∧ drop 5 m' = drop 5 (holds (L "ab") [7; 7; 7])
    ∧ ((5 ≤ 1)%nat → Status = STATUS_SUCCESS ∧ m' = holds (L "ab") [7; 7; 7])
    ∧ ((1 < 5)%nat → (length (L "ab") < 5)%nat →
       Z.of_nat 5 ≤ NTSTRSAFE_MAX_CCH →
       Status = (if (length (join (L "ab") (cstr (L "cde"))) <? 5)%nat
                 then STATUS_SUCCESS else STATUS_BUFFER_OVERFLOW)
       ∧ cstr m' = take (5 - 1) (join (L "ab") (cstr (L "cde")))).
Proof.
  apply (ConcatPaths_stays_within_capacity (L "ab") [7; 7; 7] 5 (L "cde")).
  - repeat (constructor; [discriminate|]). constructor.
  - vm_compute. lia.
Defined.

(** The three joins of the specification, for any buffer contents behind
    the base and any sufficient declared size. *)
Ltac eval_closed :=
  repeat match goal with
  | |- context [join_tail ?b ?a] =>
      let t := eval vm_compute in (join_tail b a) in change (join_tail b a) with t
  | |- context [length (L ?s)] =>
      let n := eval vm_compute in (length (L s)) in change (length (L s)) with n
  end.

Ltac join_example :=
  rewrite ConcatPaths_holds;
  [ cbv zeta; eval_closed; cbn [length];
    match goal with
    | |- context [(?n <=? ?room)%nat] => destruct (Nat.leb_spec n room); [|lia]
    end;
    rewrite take_ge by (cbn [length]; lia);
    rewrite Nat.min_r by lia; reflexivity
  | repeat (constructor; [discriminate|]); constructor
  | lia
  | eval_closed; lia
  | rewrite length_holds; eval_closed; lia
  | assumption ].

(** C7: with a declared size of at least four cells, joining "a" and "b"
    gives "a\b" (a separator is inserted), joining "a\" and "\b" gives
    "a\b" (the leading separator of the addition is skipped), and joining
    "a\" and "b" gives "a\b" (concatenation as it is); each call returns
    [STATUS_SUCCESS]. *)
Theorem ConcatPaths_joins (rest : list WCHAR) (cchPathSize : nat) :
  (4 ≤ cchPathSize)%nat → (cchPathSize ≤ length rest + 2)%nat →
  Z.of_nat cchPathSize ≤ NTSTRSAFE_MAX_CCH →
  ConcatPaths (holds (L "a") rest) cchPathSize (Some (L "b"))
  = Some (STATUS_SUCCESS, holds (L "a\b") (drop 2 rest))
  ∧ ConcatPaths (holds (L "a\") rest) cchPathSize (Some (L "\b"))
    = Some (STATUS_SUCCESS, holds (L "a\b") (drop 1 rest))
  ∧ ConcatPaths (holds (L "a\") rest) cchPathSize (Some (L "b"))
    = Some (STATUS_SUCCESS, holds (L "a\b") (drop 1 rest)).
Proof.
  intros H4 Hrest Hmax. repeat split; join_example.
Qed.

Lemma ConcatPaths_joins_witness :
  ConcatPaths (holds (L "a") [7; 7; 7]) 4 (Some (L "b"))
  = Some (STATUS_SUCCESS, holds (L "a\b") (drop 2 [7; 7; 7]))
  ∧ ConcatPaths (holds (L "a\") [7; 7; 7]) 4 (Some (L "\b"))
    = Some (STATUS_SUCCESS, holds (L "a\b") (drop 1 [7; 7; 7]))
  ∧ ConcatPaths (holds (L "a\") [7; 7; 7]) 4 (Some (L "b"))
    = Some (STATUS_SUCCESS, holds (L "a\b") (drop 1 [7; 7; 7])).
Proof.
  apply (ConcatPaths_joins [7; 7; 7] 4); [lia | cbn; lia | vm_compute; discriminate].
Defined.

(** C10: for every non-empty base whose last character is not the
    separator, an addition that is present but empty, and a declared size
    with room for one more character, the call returns [STATUS_SUCCESS]
    and the buffer then holds the base followed by one separator: the
    base is not left unchanged. *)
Theorem ConcatPaths_empty_addition
    (base rest : list WCHAR) (cchPathSize : nat) (PathElem2 : PCWSTR) :
  no_nul base → base ≠ [] →
  List.last base UNICODE_NULL ≠ OBJ_NAME_PATH_SEPARATOR →
  cstr PathElem2 = [] →
  (length base + 2 ≤ cchPathSize)%nat →
  (cchPathSize ≤ length (holds base rest))%nat →
  Z.of_nat cchPathSize ≤ NTSTRSAFE_MAX_CCH →
  ∃ m',
    ConcatPaths (holds base rest) cchPathSize (Some PathElem2) = Some (STATUS_SUCCESS, m')
    ∧ m' = holds (base ++ [OBJ_NAME_PATH_SEPARATOR]) (drop 1 rest)
    ∧ cstr m' = base ++ [OBJ_NAME_PATH_SEPARATOR]
    ∧ cstr m' ≠ cstr (holds base rest).
Proof.
  intros Hb Hne Hlast Hadd Hroom Hcap Hmax.
  rewrite ConcatPaths_holds by (assumption || lia). rewrite Hadd.
  assert (Htail : join_tail base [] = [OBJ_NAME_PATH_SEPARATOR]).
  { unfold join_tail, starts_with_separator, ends_with_separator.
    change (deref [] =? OBJ_NAME_PATH_SEPARATOR) with false.
    destruct (Z.eqb_spec (List.last base UNICODE_NULL) OBJ_NAME_PATH_SEPARATOR);
      [contradiction|].
    destruct base; [congruence|]. reflexivity. }
  rewrite Htail. cbn [length].
  destruct (Nat.leb_spec 1 (cchPathSize - 1 - length base)); [|lia].
  rewrite take_ge by (cbn [length]; lia). rewrite Nat.min_r by lia.
  eexists. split; [reflexivity|]. split; [reflexivity|].
  assert (Hb' : no_nul (base ++ [OBJ_NAME_PATH_SEPARATOR])).
  { apply no_nul_app; [assumption|]. repeat constructor. discriminate. }
  rewrite !cstr_holds by assumption. split; [reflexivity|].
  intros Heq. apply (f_equal length) in Heq. rewrite length_app in Heq.
  cbn [length] in Heq. lia.
Qed.

Lemma ConcatPaths_empty_addition_witness :
  ∃ m',
    ConcatPaths (holds (L "C:\dir") [7; 7]) 8 (Some []) = Some (STATUS_SUCCESS, m')
    ∧ m' = holds (L "C:\dir" ++ [OBJ_NAME_PATH_SEPARATOR]) (drop 1 [7; 7])
    ∧ cstr m' = L "C:\dir" ++ [OBJ_NAME_PATH_SEPARATOR]
    ∧ cstr m' ≠ cstr (holds (L "C:\dir") [7; 7]).
Proof.
  apply (ConcatPaths_empty_addition (L "C:\dir") [7; 7] 8 []).
  - repeat (constructor; [discriminate|]). constructor.
  - discriminate.
  - discriminate.
  - reflexivity.
  - cbn. lia.
  - cbn. lia.
  - vm_compute. discriminate.
Defined.

(** ** The C runtime helpers of the parser *)

Lemma towlower_nul (c : WCHAR) : towlower c = UNICODE_NULL ↔ c = UNICODE_NULL.
Proof.
  unfold towlower, UNICODE_NULL.
  destruct (Z.leb_spec 65 c); destruct (Z.leb_spec c 90); cbn [andb]; lia.
Qed.

Lemma towlower_separator (c : WCHAR) :
  towlower c = towlower OBJ_NAME_PATH_SEPARATOR → c = OBJ_NAME_PATH_SEPARATOR.
Proof.
  change (towlower OBJ_NAME_PATH_SEPARATOR) with OBJ_NAME_PATH_SEPARATOR.
  unfold towlower, OBJ_NAME_PATH_SEPARATOR.
  destruct (Z.leb_spec 65 c); destruct (Z.leb_spec c 90); cbn [andb]; lia.
Qed.

Lemma _wcsnicmp_literal (literal input : list WCHAR) :
  no_nul literal →
  (_wcsnicmp input literal (length literal) =? 0) = starts_with_literal literal input.
Proof.
  intros Hlit. revert input.
  induction Hlit as [|l literal Hl _ IH]; intros input; [reflexivity|].
  cbn [length _wcsnicmp starts_with_literal].
  assert (Hl' : towlower l ≠ UNICODE_NULL) by (rewrite towlower_nul; exact Hl).
  destruct input as [|c input]; cbn [deref hd tail].
  - change (towlower UNICODE_NULL) with 0 in *. unfold UNICODE_NULL in Hl'.
    destruct (Z.eqb_spec 0 (towlower l)); [lia|]. apply Z.eqb_neq. lia.
  - destruct (Z.eqb_spec (towlower c) (towlower l)) as [Heq|Hneq]; cbn [andb].
    + destruct (Z.eqb_spec c UNICODE_NULL) as [->|_]; [|apply IH].
      exfalso. apply Hl'. rewrite <- Heq. reflexivity.
    + apply Z.eqb_neq. lia.
Qed.

Lemma starts_with_literal_app (literal pre rest : list WCHAR) :
  map towlower pre = map towlower literal →
  starts_with_literal literal (pre ++ rest) = true.
Proof.
  revert pre. induction literal as [|l literal IH]; intros pre Hpre; [reflexivity|].
  destruct pre as [|c pre]; [discriminate|]. cbn in Hpre.
  injection Hpre as Hc Hpre. cbn [app starts_with_literal].
  rewrite Hc, Z.eqb_refl. cbn [andb]. apply IH. exact Hpre.
Qed.

Lemma drop_literal (literal pre rest : list WCHAR) :
  map towlower pre = map towlower literal → drop (length literal) (pre ++ rest) = rest.
Proof.
  intros Hpre. apply drop_app_length'.
  apply (f_equal length) in Hpre. rewrite !length_map in Hpre. congruence.
Qed.

Lemma leading_skip_digits (input : list WCHAR) :
  input = leading_digits input ++ skip_digits input.
Proof.
  induction input as [|c input IH]; [reflexivity|]. cbn.
  destruct (iswdigit c); [cbn; f_equal; exact IH|reflexivity].
Qed.

Lemma leading_digits_all (input : list WCHAR) :
  forallb iswdigit (leading_digits input) = true.
Proof.
  induction input as [|c input IH]; [reflexivity|]. cbn.
  destruct (iswdigit c) eqn:Hc; [cbn; rewrite Hc; exact IH|reflexivity].
Qed.

Lemma skip_digits_stop (input : list WCHAR) : iswdigit (deref (skip_digits input)) = false.
Proof.
  induction input as [|c input IH]; [reflexivity|]. cbn.
  destruct (iswdigit c) eqn:Hc; [exact IH|exact Hc].
Qed.

Lemma skip_digits_app (digits rest : list WCHAR) :
  forallb iswdigit digits = true → iswdigit (deref rest) = false →
  skip_digits (digits ++ rest) = rest ∧ leading_digits (digits ++ rest) = digits.
Proof.
  intros Hd Hrest. induction digits as [|c digits IH]; cbn.
  - destruct rest as [|r rest]; [split; reflexivity|].
    cbn [deref hd] in Hrest. cbn [skip_digits leading_digits].
    rewrite Hrest. split; reflexivity.
  - cbn in Hd. apply andb_true_iff in Hd as [Hc Hd]. rewrite Hc.
    destruct (IH Hd) as [-> ->]. split; reflexivity.
Qed.

Lemma iswdigit_range (c : WCHAR) : iswdigit c = true ↔ 48 ≤ c ≤ 57.
Proof. unfold iswdigit. rewrite andb_true_iff, !Z.leb_le. reflexivity. Qed.

Lemma decimal_from_ge (digits : list WCHAR) (acc : Z) :
  forallb iswdigit digits = true → 0 ≤ acc → acc ≤ decimal_from acc digits.
Proof.
  revert acc. induction digits as [|c digits IH]; intros acc Hd Hacc; cbn; [lia|].
  cbn in Hd. apply andb_true_iff in Hd as [Hc Hd]. apply iswdigit_range in Hc.
  etransitivity; [|apply IH; [exact Hd|lia]]. lia.
Qed.

(** Once the value has overflowed the loop only consumes digits. *)
Lemma wcstoul_digits_overflowed (digits rest : list WCHAR) (acc : ULONG) :
  forallb iswdigit digits = true → iswdigit (deref rest) = false →
  wcstoul_digits (digits ++ rest) acc (-1) = (acc, -1, rest).
Proof.
  intros Hd Hrest. induction digits as [|c digits IH]; cbn [app wcstoul_digits].
  - destruct rest as [|r rest]; [reflexivity|].
    cbn [deref hd] in Hrest. cbn [wcstoul_digits]. rewrite Hrest. reflexivity.
  - cbn in Hd. apply andb_true_iff in Hd as [Hc Hd]. rewrite Hc.
    change (-1 <? 0) with true. cbn [orb]. apply IH. exact Hd.
Qed.

Lemma wcstoul_digits_spec (digits rest : list WCHAR) (acc : ULONG) (any : Z) :
  forallb iswdigit digits = true → iswdigit (deref rest) = false →
  0 ≤ acc ≤ ULONG_MAX → 0 ≤ any →
  ∃ stuck : ULONG,
    wcstoul_digits (digits ++ rest) acc any
    = if decimal_from acc digits <=? ULONG_MAX
      then (decimal_from acc digits, match digits with [] => any | _ => 1 end, rest)
      else (stuck, -1, rest).
Proof.
  intros Hd Hrest. revert Hd acc any.
  induction digits as [|c digits IH]; intros Hd acc any Hacc Hany;
    cbn [app wcstoul_digits].
  - exists acc. cbn [decimal_from fold_left].
    destruct (Z.leb_spec acc ULONG_MAX); [|lia].
    destruct rest as [|r rest]; [reflexivity|].
    cbn [deref hd] in Hrest. cbn [wcstoul_digits]. rewrite Hrest. reflexivity.
  - cbn in Hd. apply andb_true_iff in Hd as [Hc Hd]. rewrite Hc.
    apply iswdigit_range in Hc.
    destruct (Z.ltb_spec any 0); [lia|]. cbn [orb].
    change (ULONG_MAX / 10) with 429496729. change (ULONG_MAX mod 10) with 5.
    unfold ULONG_MAX in Hacc.
    change (decimal_from acc (c :: digits)) with (decimal_from (acc * 10 + (c - 48)) digits).
    destruct (decide (acc * 10 + (c - 48) ≤ 4294967295)) as [Hfit|Hover].
    + destruct (Z.gtb_spec acc 429496729); [lia|].
      replace ((acc =? 429496729) && (c - 48 >? 5)) with false; cycle 1.
      { destruct (Z.eqb_spec acc 429496729); [|reflexivity].
        destruct (Z.gtb_spec (c - 48) 5); [lia|reflexivity]. }
      cbn [orb].
      destruct (IH Hd (acc * 10 + (c - 48)) 1) as [stuck ->];
        [unfold ULONG_MAX; lia | lia |].
      exists stuck.
      destruct (Z.leb_spec (decimal_from (acc * 10 + (c - 48)) digits) ULONG_MAX);
        [|reflexivity].
      destruct digits; reflexivity.
    + replace ((acc >? 429496729) || (acc =? 429496729) && (c - 48 >? 5)) with true;
        cycle 1.
      { destruct (Z.gtb_spec acc 429496729); [reflexivity|].
        destruct (Z.eqb_spec acc 429496729); [|lia].
        destruct (Z.gtb_spec (c - 48) 5); [reflexivity|lia]. }
      rewrite wcstoul_digits_overflowed by assumption. exists acc.
      pose proof (decimal_from_ge digits (acc * 10 + (c - 48)) Hd ltac:(lia)).
      destruct (Z.leb_spec (decimal_from (acc * 10 + (c - 48)) digits) ULONG_MAX);
        [unfold ULONG_MAX in *; lia|reflexivity].
Qed.

(** [wcstoul] on a non-empty run of digits: the value, [ULONG_MAX] when it
    does not fit, and the text behind the digits. *)
Lemma wcstoul_digits_run (digits rest : list WCHAR) :
  digits ≠ [] → forallb iswdigit digits = true → iswdigit (deref rest) = false →
  wcstoul (digits ++ rest) = (Z.min (decimal digits) ULONG_MAX, rest).
Proof.
  intros Hne Hd Hrest. destruct digits as [|c digits]; [congruence|].
  unfold wcstoul.
  pose proof Hd as Hd'. cbn in Hd'. apply andb_true_iff in Hd' as [Hc _].
  pose proof Hc as Hrange. apply iswdigit_range in Hrange.
  assert (Hspace : wcstoul_space ((c :: digits) ++ rest) = (c :: digits) ++ rest).
  { cbn. unfold iswspace.
    destruct (Z.leb_spec 9 c); destruct (Z.leb_spec c 13); destruct (Z.eqb_spec c 32);
      cbn; solve [reflexivity | lia]. }
  rewrite Hspace.
  assert (Hsign : wcstoul_sign ((c :: digits) ++ rest) = (false, (c :: digits) ++ rest)).
  { cbn. destruct (Z.eqb_spec c 45); [lia|]. destruct (Z.eqb_spec c 43); [lia|].
    reflexivity. }
  rewrite Hsign.
  destruct (wcstoul_digits_spec (c :: digits) rest 0 0) as [stuck ->];
    [assumption | assumption | unfold ULONG_MAX; lia | lia |].
  fold (decimal (c :: digits)).
  destruct (Z.leb_spec (decimal (c :: digits)) ULONG_MAX).
  - change (1 <? 0) with false. change (1 =? 0) with false. cbn iota.
    rewrite Z.min_l by assumption. reflexivity.
  - change (-1 <? 0) with true. change (-1 =? 0) with false. cbn iota.
    rewrite Z.min_r by lia. reflexivity.
Qed.

Lemma wcstoul_rest (Path : PCWSTR) :
  iswdigit (deref Path) = true →
  wcstoul Path = (Z.min (decimal (leading_digits Path)) ULONG_MAX, skip_digits Path).
Proof.
  intros Hd. rewrite (leading_skip_digits Path) at 1.
  apply wcstoul_digits_run.
  - destruct Path as [|c Path]; [discriminate|]. cbn in Hd |- *. rewrite Hd. discriminate.
  - apply leading_digits_all.
  - apply skip_digits_stop.
Qed.

(** ** Properties of NtPathToDiskPartComponents *)

Lemma no_nul_Harddisk : no_nul (L "\Device\Harddisk").
Proof. repeat (constructor; [discriminate|]). constructor. Qed.

Lemma no_nul_Partition : no_nul (L "\Partition").
Proof. repeat (constructor; [discriminate|]). constructor. Qed.

(** The returned [BOOLEAN] is decided by the prefix, the digit behind it
    and the character behind the disk number, and by nothing else. *)
Lemma NtPathToDiskPartComponents_ret (NtPath : PCWSTR) (HavePathComponent : bool) :
  let Path := drop 16 NtPath in
  ret (NtPathToDiskPartComponents NtPath HavePathComponent)
  = starts_with_literal (L "\Device\Harddisk") NtPath
    && iswdigit (deref Path)
    && ((deref (skip_digits Path) =? UNICODE_NULL)
        || (deref (skip_digits Path) =? OBJ_NAME_PATH_SEPARATOR)).
Proof.
  intros Path. unfold NtPathToDiskPartComponents.
  change 16%nat with (length (L "\Device\Harddisk")) at 1.
  rewrite (_wcsnicmp_literal _ _ no_nul_Harddisk).
  destruct (starts_with_literal (L "\Device\Harddisk") NtPath); [|reflexivity].
  fold Path. cbn [negb andb].
  destruct (iswdigit (deref Path)) eqn:Hdigit; [|reflexivity].
  rewrite (wcstoul_rest Path Hdigit). cbn [negb andb].
  destruct (deref (skip_digits Path) =? UNICODE_NULL); [reflexivity|].
  destruct (deref (skip_digits Path) =? OBJ_NAME_PATH_SEPARATOR); [|reflexivity].
  cbn [negb andb orb].
  repeat match goal with
         | |- context [if ?b then _ else _] => destruct b
         | |- context [let '(_, _) := ?p in _] => destruct p
         end; reflexivity.
Qed.

(** C1 (as stated, refuted): in "\Device\Harddisk0x" the prefix and a disk
    digit are present, and the call still returns [FALSE]. *)
Lemma NtPathToDiskPartComponents_rejects_Harddisk0x :
  let NtPath := L "\Device\Harddisk0x" in
  starts_with_literal (L "\Device\Harddisk") NtPath = true
  ∧ iswdigit (deref (drop 16 NtPath)) = true
  ∧ NtPathToDiskPartComponents NtPath true
    = {| ret := FALSE; pDiskNumber := 0; pPartNumber := 0; PathComponent := None |}.
Proof. repeat split. Qed.

(** C1 (amended): the call returns [FALSE] exactly for three classes of
    input: the text does not start with "\Device\Harddisk" (compared
    without regard to case), or no decimal digit follows the prefix, or
    the character behind the disk digits is neither the end of the string
    nor the separator.  Every other input returns [TRUE]. *)
Theorem NtPathToDiskPartComponents_fails_iff (NtPath : PCWSTR) (HavePathComponent : bool) :
  let Path := drop 16 NtPath in
  ret (NtPathToDiskPartComponents NtPath HavePathComponent) = FALSE
  ↔ starts_with_literal (L "\Device\Harddisk") NtPath = false
    ∨ iswdigit (deref Path) = false
    ∨ (deref (skip_digits Path) ≠ UNICODE_NULL
       ∧ deref (skip_digits Path) ≠ OBJ_NAME_PATH_SEPARATOR).
Proof.
  intros Path. rewrite NtPathToDiskPartComponents_ret. fold Path.
  destruct (starts_with_literal (L "\Device\Harddisk") NtPath);
    destruct (iswdigit (deref Path));
    destruct (Z.eqb_spec (deref (skip_digits Path)) UNICODE_NULL);
    destruct (Z.eqb_spec (deref (skip_digits Path)) OBJ_NAME_PATH_SEPARATOR);
    cbn [andb orb]; unfold FALSE; intuition congruence.
Qed.

(** C3 (the code at the input of the claim): for
    "\Device\Harddisk3\Partition" the call returns [TRUE] with disk number
    3 and partition number 0, and [PathComponent] points at the
    terminator: the remainder is empty, not "\Partition". *)
Theorem NtPathToDiskPartComponents_Partition_without_number :
  NtPathToDiskPartComponents (L "\Device\Harddisk3\Partition") true
  = {| ret := TRUE; pDiskNumber := 3; pPartNumber := 0; PathComponent := Some [] |}
  ∧ PathComponent (NtPathToDiskPartComponents (L "\Device\Harddisk3\Partition") true)
    ≠ Some (L "\Partition").
Proof. split; [reflexivity|discriminate]. Qed.

(** C6: when the prefix, a disk number, "\Partition" and partition digits
    are followed by a character that is not a digit, not the end of the
    string and not the separator, the call returns [TRUE], the partition
    number stays 0, the disk number is the one parsed, and
    [PathComponent] points at the text behind the partition digits. *)
Theorem NtPathToDiskPartComponents_partition_discarded
    (prefix disk partition digits rest : list WCHAR) (c : WCHAR) :
  map towlower prefix = map towlower (L "\Device\Harddisk") →
  disk ≠ [] → forallb iswdigit disk = true →
  map towlower partition = map towlower (L "\Partition") →
  digits ≠ [] → forallb iswdigit digits = true →
  iswdigit c = false → c ≠ UNICODE_NULL → c ≠ OBJ_NAME_PATH_SEPARATOR →
  NtPathToDiskPartComponents (prefix ++ disk ++ partition ++ digits ++ c :: rest) true
  = {| ret := TRUE; pDiskNumber := Z.min (decimal disk) ULONG_MAX; pPartNumber := 0;
       PathComponent := Some (c :: rest) |}.
Proof.
  intros Hprefix Hdisk Hdisk' Hpart Hdigits Hdigits' Hc Hc0 Hcsep.
  assert (Hsep : ∃ tl, partition = OBJ_NAME_PATH_SEPARATOR :: tl).
  { destruct partition as [|p tl]; [discriminate|]. exists tl. f_equal.
    change (L "\Partition") with (OBJ_NAME_PATH_SEPARATOR :: L "Partition") in Hpart.
    cbn [map] in Hpart. injection Hpart as Hp _.
    apply towlower_separator. exact Hp. }
  destruct Hsep as [tl Htl].
  unfold NtPathToDiskPartComponents.
  change 16%nat with (length (L "\Device\Harddisk")) at 1.
  rewrite (_wcsnicmp_literal _ _ no_nul_Harddisk).
  rewrite starts_with_literal_app by assumption. cbn [negb].
  change 16%nat with (length (L "\Device\Harddisk")).
  rewrite drop_literal by assumption.
  assert (Hd1 : iswdigit (deref (disk ++ partition ++ digits ++ c :: rest)) = true).
  { destruct disk as [|d disk]; [congruence|]. cbn in Hdisk' |- *.
    apply andb_true_iff in Hdisk' as [-> _]. reflexivity. }
  rewrite Hd1. cbn [negb].
  rewrite wcstoul_digits_run by (assumption || (rewrite Htl; reflexivity)).
  assert (Hderef : deref (partition ++ digits ++ c :: rest) = OBJ_NAME_PATH_SEPARATOR)
    by (rewrite Htl; reflexivity).
  rewrite !Hderef.
  change (OBJ_NAME_PATH_SEPARATOR =? UNICODE_NULL) with false.
  rewrite Z.eqb_refl. cbn [negb andb].
  change 10%nat with (length (L "\Partition")) at 1.
  rewrite (_wcsnicmp_literal _ _ no_nul_Partition).
  rewrite starts_with_literal_app by assumption. cbn [negb].
  change 10%nat with (length (L "\Partition")).
  rewrite drop_literal by assumption.
  assert (Hd2 : iswdigit (deref (digits ++ c :: rest)) = true).
  { destruct digits as [|d digits]; [congruence|]. cbn in Hdigits' |- *.
    apply andb_true_iff in Hdigits' as [-> _]. reflexivity. }
  rewrite Hd2. cbn [negb].
  rewrite wcstoul_digits_run by assumption. cbn [deref hd].
  destruct (Z.eqb_spec c UNICODE_NULL); [contradiction|].
  destruct (Z.eqb_spec c OBJ_NAME_PATH_SEPARATOR); [contradiction|].
  reflexivity.
Qed.

Lemma NtPathToDiskPartComponents_partition_discarded_witness :
  NtPathToDiskPartComponents
    (L "\DEVICE\harddisk" ++ L "1" ++ L "\partition" ++ L "2" ++ 120 :: L "\foo") true
  = {| ret := TRUE; pDiskNumber := Z.min (decimal (L "1")) ULONG_MAX; pPartNumber := 0;
       PathComponent := Some (120 :: L "\foo") |}.
Proof.
  apply (NtPathToDiskPartComponents_partition_discarded
           (L "\DEVICE\harddisk") (L "1") (L "\partition") (L "2") (L "\foo") 120);
    solve [reflexivity | discriminate].
Defined.

(** ** The kernel model *)

Lemma unused_above (used : list Z) (x : Z) : x ∈ used → x < unused used.
Proof.
  unfold unused. induction 1 as [x used|x y used _ IH]; cbn [foldr]; lia.
Qed.

Lemma unused_not_open (used : list Z) : is_open (unused used) used = false.
Proof.
  unfold is_open. apply not_true_is_false. intros Hex.
  apply existsb_exists in Hex as (x & Hin & Heq).
  apply Z.eqb_eq in Heq. apply list_elem_of_In, unused_above in Hin. lia.
Qed.

Lemma release_absent (h : Z) (used : list Z) : is_open h used = false → release h used = used.
Proof.
  unfold is_open, release. induction used as [|x used IH]; [reflexivity|].
  cbn [existsb]. intros Hex. apply orb_false_iff in Hex as [Hx Hex].
  apply Z.eqb_neq in Hx. rewrite filter_cons_True by congruence.
  rewrite IH by assumption. reflexivity.
Qed.

Lemma release_head (h : Z) (used : list Z) :
  is_open h used = false → release h (h :: used) = used.
Proof.
  intros Hh. unfold release. rewrite filter_cons_False by (intros Hne; apply Hne; reflexivity).
  apply release_absent. exact Hh.
Qed.

Lemma is_open_head (h : Z) (used : list Z) : is_open h (h :: used) = true.
Proof. unfold is_open. cbn [existsb]. rewrite Z.eqb_refl. reflexivity. Qed.

(** Closing the handle acquired last gives back the table as it was. *)
Lemma NtClose_unused (hs : list Z) (vs : list Z) (cs : list Call) :
  NtClose (unused hs) (mkKernel (unused hs :: hs) vs cs)
  = (STATUS_SUCCESS, mkKernel hs vs (cs ++ [CallNtClose (unused hs)])).
Proof.
  unfold NtClose, sys_bind, record. cbn [handles views calls].
  rewrite is_open_head, release_head by apply unused_not_open. reflexivity.
Qed.

Ltac run_services :=
  repeat unfold OpenAndMapFile, UnMapFile, sys_bind, sys_ret, NtOpenFile,
    NtQueryInformationFile, NtCreateSection, NtMapViewOfSection, record,
    open_call, query_calls, section_call, map_call, resources;
  cbn -[NT_SUCCESS unused NtClose NtUnmapViewOfSection FullName cstr Z.lor app LowPart].

Ltac path_step :=
  match goal with
  | H : NT_SUCCESS ?s = _ |- context [NT_SUCCESS ?s] => rewrite H
  | |- context [NtClose (unused ?hs) (mkKernel (unused ?hs :: ?hs) _ _)] =>
      rewrite NtClose_unused
  | |- context [if negb (NT_SUCCESS ?s) then _ else _] =>
      let H := fresh "Hstatus" in destruct (NT_SUCCESS s) eqn:H
  | |- context [if NT_SUCCESS ?s then _ else _] =>
      let H := fresh "Hstatus" in destruct (NT_SUCCESS s) eqn:H
  | |- context [if ?b then _ else _] => is_var b; destruct b
  end;
  run_services.

(** ** Properties of OpenAndMapFile and UnMapFile *)

(** C2: whenever the call returns a failure status, the handle table and
    the mapped views are what they were before the call and both returned
    handles are [NULL].  The failure is one of four: the open failed, and
    then its status is returned and no handle was acquired or closed; or
    the query failed and the call ends by closing the file handle; or the
    section creation failed and the call ends by closing the file handle;
    or the mapping failed and the call ends by closing the section handle
    and then the file handle. *)
Theorem OpenAndMapFile_failure_releases
    (env : Env) (RootDirectory : HANDLE) (PathName FileName : option PCWSTR)
    (HaveFileSize : bool) (k : Kernel) :
  let out := OpenAndMapFile env RootDirectory PathName FileName HaveFileSize k in
  let file := unused (handles k) in
  let section := unused (file :: handles k) in
  let opened := calls k ++ [open_call env RootDirectory PathName FileName] in
  NT_SUCCESS (Status out.1) = false →
  handles out.2 = handles k ∧ views out.2 = views k ∧ resources out.2 = resources k
  ∧ FileHandle out.1 = NULL ∧ SectionHandle out.1 = NULL
  ∧ ((NT_SUCCESS (open_status env) = false
      ∧ Status out.1 = open_status env
      ∧ calls out.2 = opened)
     ∨ (NT_SUCCESS (open_status env) = true
        ∧ HaveFileSize = true ∧ NT_SUCCESS (query_status env) = false
        ∧ Status out.1 = query_status env
        ∧ calls out.2 = opened ++ query_calls true file ++ [CallNtClose file])
     ∨ (NT_SUCCESS (open_status env) = true
        ∧ NT_SUCCESS (section_status env) = false
        ∧ Status out.1 = section_status env
        ∧ calls out.2 = opened ++ query_calls HaveFileSize file
                        ++ [section_call file; CallNtClose file])
     ∨ (NT_SUCCESS (open_status env) = true
        ∧ NT_SUCCESS (section_status env) = true
        ∧ NT_SUCCESS (map_status env) = false
        ∧ Status out.1 = map_status env
        ∧ calls out.2 = opened ++ query_calls HaveFileSize file
                        ++ [section_call file; map_call section;
                            CallNtClose section; CallNtClose file])).
Proof.
  intros out file section opened. subst out file section opened. run_services.
  repeat path_step; intros Hfail; try discriminate;
    (repeat split; try reflexivity);
    first [ left; repeat split; rewrite <- ?app_assoc; reflexivity
          | right; left; repeat split; rewrite <- ?app_assoc; reflexivity
          | right; right; left; repeat split; rewrite <- ?app_assoc; reflexivity
          | right; right; right; repeat split; rewrite <- ?app_assoc; reflexivity ].
Qed.

Lemma OpenAndMapFile_failure_releases_witness :
  let out := OpenAndMapFile map_fails NULL (Some (L "\SystemRoot")) (Some (L "txtsetup.sif"))
               true boot in
  handles out.2 = [] ∧ views out.2 = [] ∧ resources out.2 = O
  ∧ Status out.1 = STATUS_NO_MEMORY
  ∧ calls out.2 = [open_call map_fails NULL (Some (L "\SystemRoot")) (Some (L "txtsetup.sif"));
                   CallNtQueryInformationFile 1 FileStandardInformation;
                   section_call 1; map_call 2; CallNtClose 2; CallNtClose 1].
Proof.
  pose proof (OpenAndMapFile_failure_releases map_fails NULL (Some (L "\SystemRoot"))
                (Some (L "txtsetup.sif")) true boot eq_refl)
    as (Hh & Hv & Hr & _ & _ & _).
  split; [exact Hh|]. split; [exact Hv|]. split; [exact Hr|]. split; reflexivity.
Defined.

(** C5 (as stated, refuted): the share access the call passes to
    [NtOpenFile] is [FILE_SHARE_READ] alone; the [FILE_SHARE_WRITE] bit is
    not set, so the file is not shared for writing. *)
Lemma OpenAndMapFile_share_access_is_read_only :
  let out := OpenAndMapFile (all_ok 1000) NULL (Some (L "\SystemRoot"))
               (Some (L "txtsetup.sif")) true boot in
  match calls out.2 with
  | CallNtOpenFile _ ObjectName _ _ ShareAccess _ :: _ =>
      ObjectName = L "\SystemRoot\txtsetup.sif"
      ∧ ShareAccess = FILE_SHARE_READ
      ∧ Z.land ShareAccess FILE_SHARE_WRITE = 0
  | _ => False
  end.
Proof. vm_compute. repeat split. Qed.

(** C5 (amended): the call opens the file exactly once, first of all its
    service calls, with the access [GENERIC_READ | SYNCHRONIZE] and the
    share access [FILE_SHARE_READ]: other openers may read the file, and
    write sharing is not granted. *)
Theorem OpenAndMapFile_opens_shared_for_read
    (env : Env) (RootDirectory : HANDLE) (PathName FileName : option PCWSTR)
    (HaveFileSize : bool) (k : Kernel) :
  ∃ later,
    calls (OpenAndMapFile env RootDirectory PathName FileName HaveFileSize k).2
    = calls k
      ++ CallNtOpenFile (Z.lor GENERIC_READ SYNCHRONIZE)
           (cstr (FullName (FullName_at_entry env) PathName FileName))
           OBJ_CASE_INSENSITIVE RootDirectory FILE_SHARE_READ
           (Z.lor FILE_SYNCHRONOUS_IO_NONALERT FILE_NON_DIRECTORY_FILE)
         :: later
    ∧ existsb is_open_call later = false
    ∧ Z.land FILE_SHARE_READ FILE_SHARE_READ = FILE_SHARE_READ
    ∧ Z.land FILE_SHARE_READ FILE_SHARE_WRITE = 0.
Proof.
  run_services. repeat path_step;
    rewrite <- ?app_assoc; cbn [app]; eexists; (split; [reflexivity|]);
    repeat split.
Qed.

Lemma LowPart_mod (q : Z) : LowPart q = q mod 4294967296.
Proof. unfold LowPart. apply (Z.land_ones q 32). lia. Qed.

(** C8: when the size is requested, the open and the query succeed and the
    high half of the byte count is not zero, the size stored is the byte
    count modulo 2^32 and the call goes on to create the section; when
    the section creation and the mapping succeed too, the call returns
    [STATUS_SUCCESS] with the three handles and that same size. *)
Theorem OpenAndMapFile_large_file
    (env : Env) (RootDirectory : HANDLE) (PathName FileName : option PCWSTR) (k : Kernel) :
  let out := OpenAndMapFile env RootDirectory PathName FileName true k in
  let file := unused (handles k) in
  let section := unused (file :: handles k) in
  let begun := [open_call env RootDirectory PathName FileName;
                CallNtQueryInformationFile file FileStandardInformation;
                section_call file] in
  NT_SUCCESS (open_status env) = true →
  NT_SUCCESS (query_status env) = true →
  HighPart (EndOfFile env) ≠ 0 →
  FileSize out.1 = Some (EndOfFile env mod 4294967296)
  ∧ (∃ later, calls out.2 = calls k ++ begun ++ later)
  ∧ (NT_SUCCESS (section_status env) = true → NT_SUCCESS (map_status env) = true →
     out.1 = mkMapped STATUS_SUCCESS file section (Some (unused (views k)))
               (Some (EndOfFile env mod 4294967296))
     ∧ out.2 = mkKernel (section :: file :: handles k) (unused (views k) :: views k)
                 (calls k ++ begun ++ [map_call section])).
Proof.
  intros out file section begun Hopen Hquery _.
  subst out file section begun. run_services.
  rewrite Hopen. run_services. rewrite Hquery. run_services.
  rewrite <- LowPart_mod.
  repeat path_step; rewrite <- ?app_assoc; cbn [app];
    (split; [reflexivity|]); (split; [eexists; reflexivity|]);
    intros; solve [discriminate | split; reflexivity].
Qed.

Lemma OpenAndMapFile_large_file_witness :
  let out := OpenAndMapFile large_file NULL (Some (L "\SystemRoot")) (Some (L "big.cab"))
               true boot in
  FileSize out.1 = Some 5 ∧ Status out.1 = STATUS_SUCCESS ∧ resources out.2 = 3%nat.
Proof.
  destruct (OpenAndMapFile_large_file large_file NULL (Some (L "\SystemRoot"))
              (Some (L "big.cab")) boot eq_refl eq_refl) as (Hsize & _ & Hall).
  { discriminate. }
  destruct (Hall eq_refl eq_refl) as [Hout Hk].
  split; [exact Hsize|]. cbv zeta. rewrite Hout, Hk. split; reflexivity.
Defined.

(** C9: the call always makes both service calls, the unmap and then the
    close of the section handle, whatever the unmap returned; it returns
    [TRUE] exactly when both returned a success status, and it leaves the
    kernel in the state after the close. *)
Theorem UnMapFile_attempts_both (SectionHandle : HANDLE) (BaseAddress : PVOID) (k : Kernel) :
  let unmapped := NtUnmapViewOfSection NtCurrentProcess BaseAddress k in
  let closed := NtClose SectionHandle unmapped.2 in
  let out := UnMapFile SectionHandle BaseAddress k in
  calls out.2 = calls k ++ [CallNtUnmapViewOfSection NtCurrentProcess BaseAddress;
                            CallNtClose SectionHandle]
  ∧ out.2 = closed.2
  ∧ (out.1 = TRUE ↔ NT_SUCCESS unmapped.1 = true ∧ NT_SUCCESS closed.1 = true)
  ∧ (NT_SUCCESS unmapped.1 = true ↔ is_open BaseAddress (views k) = true)
  ∧ (NT_SUCCESS closed.1 = true ↔ is_open SectionHandle (handles k) = true)
  ∧ (is_open SectionHandle (handles k) = true →
     handles out.2 = release SectionHandle (handles k)).
Proof.
  intros unmapped closed out. subst unmapped closed out.
  unfold UnMapFile, NtClose, NtUnmapViewOfSection, sys_bind, sys_ret, record.
  cbn [handles views calls fst snd].
  destruct (is_open BaseAddress (views k)); cbn [handles views calls fst snd];
    destruct (is_open SectionHandle (handles k)); cbn [handles views calls fst snd];
    rewrite <- app_assoc; cbn [app];
    repeat split; try reflexivity; try discriminate;
    intros; try tauto; try (destruct_and?; discriminate).
Qed.

(** ** Further properties of ConcatPaths *)

(** The outcome when the joined string fits, in the form the properties
    below share. *)
Lemma ConcatPaths_holds_fits (base rest : list WCHAR) (cchPathSize : nat) (PathElem2 : PCWSTR) :
  no_nul base → (1 < cchPathSize)%nat →
  (length (join base (cstr PathElem2)) < cchPathSize)%nat →
  (cchPathSize ≤ length (holds base rest))%nat →
  Z.of_nat cchPathSize ≤ NTSTRSAFE_MAX_CCH →
  ConcatPaths (holds base rest) cchPathSize (Some PathElem2)
  = Some (STATUS_SUCCESS,
          holds (join base (cstr PathElem2))
                (drop (length (join_tail base (cstr PathElem2))) rest)).
Proof.
  intros Hb H1 Hfit Hcap Hmax. unfold join in *. rewrite length_app in Hfit.
  rewrite ConcatPaths_holds by (assumption || lia).
  destruct (Nat.leb_spec (length (join_tail base (cstr PathElem2)))
                         (cchPathSize - 1 - length base)); [|lia].
  rewrite take_ge by lia. rewrite Nat.min_r by lia. reflexivity.
Qed.

(** X1: when the base with the joined addition and the terminator fits the
    declared size, the call returns [STATUS_SUCCESS] and the buffer holds
    exactly the join of the separator policy; the cells behind the new
    terminator keep their contents. *)
Theorem ConcatPaths_fits
    (base rest : list WCHAR) (cchPathSize : nat) (PathElem2 : PCWSTR) :
  no_nul base → (1 < cchPathSize)%nat →
  (length (join base (cstr PathElem2)) < cchPathSize)%nat →
  (cchPathSize ≤ length (holds base rest))%nat →
  Z.of_nat cchPathSize ≤ NTSTRSAFE_MAX_CCH →
  ∃ m',
    ConcatPaths (holds base rest) cchPathSize (Some PathElem2) = Some (STATUS_SUCCESS, m')
    ∧ cstr m' = join base (cstr PathElem2)
    ∧ drop (S (length (join base (cstr PathElem2)))) m'
      = drop (S (length (join base (cstr PathElem2)))) (holds base rest).
Proof.
  intros Hb H1 Hfit Hcap Hmax.
  rewrite ConcatPaths_holds_fits by assumption.
  eexists. split; [reflexivity|].
  assert (Hj : no_nul (join base (cstr PathElem2))).
  { apply no_nul_app; [assumption|]. apply no_nul_join_tail, cstr_no_nul. }
  split; [apply cstr_holds; exact Hj|].
  unfold holds at 1. rewrite drop_app_ge by lia.
  replace (S (length (join base (cstr PathElem2))) - length (join base (cstr PathElem2)))%nat
    with 1%nat by lia.
  cbn [drop]. unfold join, holds. rewrite length_app.
  rewrite drop_app_ge by lia.
  replace (S (length base + length (join_tail base (cstr PathElem2))) - length base)%nat
    with (S (length (join_tail base (cstr PathElem2)))) by lia.
  reflexivity.
Qed.

Lemma ConcatPaths_fits_witness :
  ∃ m',
    ConcatPaths (holds (L "C:\dir") [7; 7; 7; 7; 7]) 12 (Some (L "x.y")) = Some (STATUS_SUCCESS, m')
    ∧ cstr m' = join (L "C:\dir") (cstr (L "x.y"))
    ∧ drop (S (length (join (L "C:\dir") (cstr (L "x.y"))))) m'
      = drop (S (length (join (L "C:\dir") (cstr (L "x.y")))))
             (holds (L "C:\dir") [7; 7; 7; 7; 7]).
Proof.
  apply (ConcatPaths_fits (L "C:\dir") [7; 7; 7; 7; 7] 12 (L "x.y")).
  - repeat (constructor; [discriminate|]). constructor.
  - lia.
  - vm_compute. lia.
  - vm_compute. lia.
  - vm_compute. discriminate.
Defined.



(** X3: when the buffer has no terminator within the declared size, the
    call writes nothing and returns [STATUS_INVALID_PARAMETER]. *)
Theorem ConcatPaths_unterminated_base
    (base rest : list WCHAR) (cchPathSize : nat) (PathElem2 : PCWSTR) :
  no_nul base → (1 < cchPathSize)%nat → (cchPathSize ≤ length base)%nat →
  ConcatPaths (holds base rest) cchPathSize (Some PathElem2)
  = Some (STATUS_INVALID_PARAMETER, holds base rest).
Proof.
  intros Hb H1 Hlong. apply ConcatPaths_unfit; [assumption|assumption|left; exact Hlong].
Qed.

Lemma ConcatPaths_unterminated_base_witness :
  ConcatPaths (holds (L "abcd") [7]) 3 (Some (L "e"))
  = Some (STATUS_INVALID_PARAMETER, holds (L "abcd") [7]).
Proof.
  apply (ConcatPaths_unterminated_base (L "abcd") [7] 3 (L "e")).
  - repeat (constructor; [discriminate|]). constructor.
  - lia.
  - vm_compute. lia.
Defined.







(** ** Further properties of NtPathToDiskPartComponents *)

Lemma deref_digits (digits rest : list WCHAR) :
  digits ≠ [] → forallb iswdigit digits = true → iswdigit (deref (digits ++ rest)) = true.
Proof.
  intros Hne Hd. destruct digits as [|d digits]; [congruence|].
  cbn [forallb] in Hd. apply andb_true_iff in Hd as [Hd _]. exact Hd.
Qed.

Lemma not_digit_end_or_separator (rest : list WCHAR) :
  deref rest = UNICODE_NULL ∨ deref rest = OBJ_NAME_PATH_SEPARATOR →
  iswdigit (deref rest) = false.
Proof. intros [-> | ->]; reflexivity. Qed.

(** The steps of the function up to the disk number, for an input that is
    the prefix in any case, a run of digits, and a rest that is no digit. *)
Ltac parse_disk Hprefix Hdisk Hdisk' Hrest :=
  unfold NtPathToDiskPartComponents;
  change 16%nat with (length (L "\Device\Harddisk")) at 1;
  rewrite (_wcsnicmp_literal _ _ no_nul_Harddisk);
  rewrite (starts_with_literal_app _ _ _ Hprefix); cbn [negb];
  change 16%nat with (length (L "\Device\Harddisk"));
  rewrite (drop_literal _ _ _ Hprefix);
  rewrite (deref_digits _ _ Hdisk Hdisk'); cbn [negb];
  rewrite (wcstoul_digits_run _ _ Hdisk Hdisk' Hrest).

(** X6: a locator of the full form, the prefix and "\Partition" in any
    case, each followed by digits, and then the end of the string or a
    separator, is parsed completely: the call returns [TRUE] with both
    numbers (cut to [ULONG_MAX] when they do not fit) and [PathComponent]
    at the rest. *)
Theorem NtPathToDiskPartComponents_full_match
    (prefix disk partition digits rest : list WCHAR) :
  map towlower prefix = map towlower (L "\Device\Harddisk") →
  disk ≠ [] → forallb iswdigit disk = true →
  map towlower partition = map towlower (L "\Partition") →
  digits ≠ [] → forallb iswdigit digits = true →
  deref rest = UNICODE_NULL ∨ deref rest = OBJ_NAME_PATH_SEPARATOR →
  NtPathToDiskPartComponents (prefix ++ disk ++ partition ++ digits ++ rest) true
  = {| ret := TRUE; pDiskNumber := Z.min (decimal disk) ULONG_MAX;
       pPartNumber := Z.min (decimal digits) ULONG_MAX; PathComponent := Some rest |}.
Proof.
  intros Hprefix Hdisk Hdisk' Hpart Hdigits Hdigits' Hrest.
  assert (Hderef : deref (partition ++ digits ++ rest) = OBJ_NAME_PATH_SEPARATOR).
  { destruct partition as [|p tl]; [discriminate|].
    change (L "\Partition") with (OBJ_NAME_PATH_SEPARATOR :: L "Partition") in Hpart.
    cbn [map] in Hpart. injection Hpart as Hp _.
    apply towlower_separator in Hp. subst p. reflexivity. }
  assert (Hstop : iswdigit (deref (partition ++ digits ++ rest)) = false)
    by (rewrite Hderef; reflexivity).
  parse_disk Hprefix Hdisk Hdisk' Hstop.
  rewrite !Hderef. change (OBJ_NAME_PATH_SEPARATOR =? UNICODE_NULL) with false.
  rewrite Z.eqb_refl. cbn [negb andb].
  change 10%nat with (length (L "\Partition")) at 1.
  rewrite (_wcsnicmp_literal _ _ no_nul_Partition).
  rewrite starts_with_literal_app by assumption. cbn [negb].
  change 10%nat with (length (L "\Partition")).
  rewrite drop_literal by assumption.
  rewrite deref_digits by assumption. cbn [negb].
  rewrite wcstoul_digits_run
    by (assumption || apply not_digit_end_or_separator; assumption).
  destruct Hrest as [-> | ->]; reflexivity.
Qed.

Lemma NtPathToDiskPartComponents_full_match_witness :
  NtPathToDiskPartComponents
    (L "\device\HARDDISK" ++ L "12" ++ L "\PARTITION" ++ L "3" ++ L "\reactos\system32") true
  = {| ret := TRUE; pDiskNumber := Z.min (decimal (L "12")) ULONG_MAX;
       pPartNumber := Z.min (decimal (L "3")) ULONG_MAX;
       PathComponent := Some (L "\reactos\system32") |}.
Proof.
  apply (NtPathToDiskPartComponents_full_match
           (L "\device\HARDDISK") (L "12") (L "\PARTITION") (L "3") (L "\reactos\system32"));
    solve [reflexivity | discriminate | right; reflexivity].
Defined.

(** X7: when the disk number is followed by the end of the string, or by
    a separator whose text does not begin with the ten characters
    "\Partition" (compared in any case), the call returns [TRUE] with the
    disk number, the partition number 0 and [PathComponent] at what
    follows the disk number. *)
Theorem NtPathToDiskPartComponents_disk_only (prefix disk rest : list WCHAR) :
  map towlower prefix = map towlower (L "\Device\Harddisk") →
  disk ≠ [] → forallb iswdigit disk = true →
  deref rest = UNICODE_NULL
  ∨ (deref rest = OBJ_NAME_PATH_SEPARATOR
     ∧ starts_with_literal (L "\Partition") rest = false) →
  NtPathToDiskPartComponents (prefix ++ disk ++ rest) true
  = {| ret := TRUE; pDiskNumber := Z.min (decimal disk) ULONG_MAX; pPartNumber := 0;
       PathComponent := Some rest |}.
Proof.
  intros Hprefix Hdisk Hdisk' Hrest.
  assert (Hstop : iswdigit (deref rest) = false).
  { apply not_digit_end_or_separator. tauto. }
  parse_disk Hprefix Hdisk Hdisk' Hstop.
  destruct Hrest as [Hend | [Hsep Hother]].
  - rewrite !Hend. reflexivity.
  - rewrite !Hsep. change (OBJ_NAME_PATH_SEPARATOR =? UNICODE_NULL) with false.
    rewrite Z.eqb_refl. cbn [negb andb].
    change 10%nat with (length (L "\Partition")) at 1.
    rewrite (_wcsnicmp_literal _ _ no_nul_Partition), Hother. reflexivity.
Qed.

Lemma NtPathToDiskPartComponents_disk_only_witness :
  NtPathToDiskPartComponents (L "\Device\Harddisk" ++ L "0" ++ L "\Part1\boot.ini") true
  = {| ret := TRUE; pDiskNumber := Z.min (decimal (L "0")) ULONG_MAX; pPartNumber := 0;
       PathComponent := Some (L "\Part1\boot.ini") |}.
Proof.
  apply (NtPathToDiskPartComponents_disk_only (L "\Device\Harddisk") (L "0") (L "\Part1\boot.ini"));
    solve [reflexivity | discriminate | right; split; reflexivity].
Defined.

Ltac parse_paths :=
  repeat match goal with
         | |- context [if ?b then _ else _] => destruct b
         | |- context [let '(_, _) := ?p in _] => destruct p
         end.

(** X8: whenever the call returns [FALSE], the disk and partition numbers
    are 0 and [PathComponent] is [NULL]. *)
Theorem NtPathToDiskPartComponents_failure_outputs
    (NtPath : PCWSTR) (HavePathComponent : bool) :
  ret (NtPathToDiskPartComponents NtPath HavePathComponent) = FALSE →
  NtPathToDiskPartComponents NtPath HavePathComponent
  = {| ret := FALSE; pDiskNumber := 0; pPartNumber := 0; PathComponent := None |}.
Proof.
  unfold NtPathToDiskPartComponents. parse_paths; cbn [ret]; intros Hret;
    solve [reflexivity | discriminate].
Qed.

Lemma NtPathToDiskPartComponents_failure_outputs_witness :
  NtPathToDiskPartComponents (L "\Device\Harddisk7Partition1") true
  = {| ret := FALSE; pDiskNumber := 0; pPartNumber := 0; PathComponent := None |}.
Proof.
  apply (NtPathToDiskPartComponents_failure_outputs (L "\Device\Harddisk7Partition1") true).
  reflexivity.
Defined.

Lemma starts_with_literal_length (literal input : list WCHAR) :
  starts_with_literal literal input = true → (length literal ≤ length input)%nat.
Proof.
  revert input. induction literal as [|l literal IH]; intros input H; cbn [length]; [lia|].
  destruct input as [|c input]; [discriminate|]. cbn [starts_with_literal] in H.
  apply andb_true_iff in H as [_ H]. apply IH in H. cbn [length]. lia.
Qed.

Lemma skip_digits_suffix (input : list WCHAR) : skip_digits input `suffix_of` input.
Proof. exists (leading_digits input). apply leading_skip_digits. Qed.

Lemma skip_digits_shorter (input : list WCHAR) :
  iswdigit (deref input) = true → (length (skip_digits input) < length input)%nat.
Proof.
  intros Hd. destruct input as [|c input]; [discriminate|].
  cbn [deref hd] in Hd. cbn [skip_digits]. rewrite Hd.
  pose proof (suffix_length _ _ (skip_digits_suffix input)). cbn [length]. lia.
Qed.

(** X9: the pointer returned in [PathComponent] points inside [NtPath]: the
    remainder is a suffix of the input, behind the prefix and at least one
    digit. *)
Theorem NtPathToDiskPartComponents_PathComponent_inside (NtPath Path : PCWSTR) :
  PathComponent (NtPathToDiskPartComponents NtPath true) = Some Path →
  Path `suffix_of` NtPath ∧ (length Path + 17 ≤ length NtPath)%nat.
Proof.
  unfold NtPathToDiskPartComponents.
  change 16%nat with (length (L "\Device\Harddisk")) at 1.
  rewrite (_wcsnicmp_literal _ _ no_nul_Harddisk).
  destruct (starts_with_literal (L "\Device\Harddisk") NtPath) eqn:Hprefix;
    cbn [negb]; [|discriminate].
  apply starts_with_literal_length in Hprefix. change (length (L "\Device\Harddisk")) with 16%nat in Hprefix.
  set (P0 := drop 16 NtPath).
  assert (H0 : P0 `suffix_of` NtPath ∧ (length P0 + 16 = length NtPath)%nat).
  { split; [apply suffix_drop|]. unfold P0. rewrite length_drop. lia. }
  destruct H0 as [Hs0 Hl0].
  destruct (iswdigit (deref P0)) eqn:Hd0; cbn [negb]; [|discriminate].
  rewrite (wcstoul_rest P0 Hd0).
  set (P1 := skip_digits P0).
  assert (Hs1 : P1 `suffix_of` NtPath) by (etransitivity; [apply skip_digits_suffix|exact Hs0]).
  assert (Hl1 : (length P1 + 17 ≤ length NtPath)%nat).
  { pose proof (skip_digits_shorter P0 Hd0). fold P1 in H. lia. }
  assert (Hs2 : drop 10 P1 `suffix_of` NtPath) by (etransitivity; [apply suffix_drop|exact Hs1]).
  assert (Hl2 : (length (drop 10 P1) + 17 ≤ length NtPath)%nat)
    by (rewrite length_drop; lia).
  destruct (negb (deref P1 =? UNICODE_NULL) && negb (deref P1 =? OBJ_NAME_PATH_SEPARATOR));
    [discriminate|].
  destruct (deref P1 =? UNICODE_NULL); [cbn; intros [= <-]; split; assumption|].
  destruct (negb (_wcsnicmp P1 (L "\Partition") 10 =? 0));
    [cbn; intros [= <-]; split; assumption|].
  destruct (iswdigit (deref (drop 10 P1))) eqn:Hd2; cbn [negb];
    [|cbn; intros [= <-]; split; assumption].
  rewrite (wcstoul_rest _ Hd2).
  assert (Hs3 : skip_digits (drop 10 P1) `suffix_of` NtPath)
    by (etransitivity; [apply skip_digits_suffix|exact Hs2]).
  assert (Hl3 : (length (skip_digits (drop 10 P1)) + 17 ≤ length NtPath)%nat).
  { pose proof (suffix_length _ _ (skip_digits_suffix (drop 10 P1))). lia. }
  parse_paths; cbn; intros [= <-]; split; assumption.
Qed.

Lemma NtPathToDiskPartComponents_PathComponent_inside_witness :
  L "\boot" `suffix_of` L "\Device\Harddisk0\Partition1\boot"
  ∧ (length (L "\boot") + 17 ≤ length (L "\Device\Harddisk0\Partition1\boot"))%nat.
Proof.
  apply (NtPathToDiskPartComponents_PathComponent_inside
           (L "\Device\Harddisk0\Partition1\boot") (L "\boot")).
  reflexivity.
Defined.

(** X10: an input that does not start with the separator is rejected; in
    particular leading white space is not accepted. *)
Theorem NtPathToDiskPartComponents_needs_leading_separator
    (NtPath : PCWSTR) (HavePathComponent : bool) :
  deref NtPath ≠ OBJ_NAME_PATH_SEPARATOR →
  NtPathToDiskPartComponents NtPath HavePathComponent
  = {| ret := FALSE; pDiskNumber := 0; pPartNumber := 0; PathComponent := None |}.
Proof.
  intros Hfirst. unfold NtPathToDiskPartComponents.
  change 16%nat with (length (L "\Device\Harddisk")) at 1.
  rewrite (_wcsnicmp_literal _ _ no_nul_Harddisk).
  assert (Hno : starts_with_literal (L "\Device\Harddisk") NtPath = false).
  { destruct NtPath as [|c NtPath]; [reflexivity|].
    change (L "\Device\Harddisk") with (OBJ_NAME_PATH_SEPARATOR :: L "Device\Harddisk").
    cbn [starts_with_literal deref hd] in *.
    destruct (Z.eqb_spec (towlower c) (towlower OBJ_NAME_PATH_SEPARATOR)) as [Heq|];
      [|reflexivity].
    apply towlower_separator in Heq. contradiction. }
  rewrite Hno. reflexivity.
Qed.

Lemma NtPathToDiskPartComponents_needs_leading_separator_witness :
  NtPathToDiskPartComponents (L " \Device\Harddisk0") true
  = {| ret := FALSE; pDiskNumber := 0; pPartNumber := 0; PathComponent := None |}.
Proof.
  apply (NtPathToDiskPartComponents_needs_leading_separator (L " \Device\Harddisk0") true).
  discriminate.
Defined.

(** X11: whenever a partition number other than 0 is returned, the text
    behind the disk number begins with "\Partition" in any case and the
    number is the value of the digits that follow it, or [ULONG_MAX] when
    that value does not fit. *)
Theorem NtPathToDiskPartComponents_partition_value
    (NtPath : PCWSTR) (HavePathComponent : bool) :
  let behind_disk := skip_digits (drop 16 NtPath) in
  pPartNumber (NtPathToDiskPartComponents NtPath HavePathComponent) ≠ 0 →
  starts_with_literal (L "\Partition") behind_disk = true
  ∧ pPartNumber (NtPathToDiskPartComponents NtPath HavePathComponent)
    = Z.min (decimal (leading_digits (drop 10 behind_disk))) ULONG_MAX.
Proof.
  intros behind_disk. subst behind_disk. unfold NtPathToDiskPartComponents.
  destruct (negb (_wcsnicmp NtPath (L "\Device\Harddisk") 16 =? 0)); [cbn; congruence|].
  destruct (iswdigit (deref (drop 16 NtPath))) eqn:Hd0; cbn [negb]; [|cbn; congruence].
  rewrite (wcstoul_rest _ Hd0).
  set (P1 := skip_digits (drop 16 NtPath)).
  destruct (negb (deref P1 =? UNICODE_NULL) && negb (deref P1 =? OBJ_NAME_PATH_SEPARATOR));
    [cbn; congruence|].
  destruct (deref P1 =? UNICODE_NULL); [cbn; congruence|].
  assert (Hlit : (_wcsnicmp P1 (L "\Partition") 10 =? 0)
                 = starts_with_literal (L "\Partition") P1)
    by exact (_wcsnicmp_literal (L "\Partition") P1 no_nul_Partition).
  rewrite !Hlit.
  destruct (starts_with_literal (L "\Partition") P1); cbn [negb]; [|cbn; congruence].
  destruct (iswdigit (deref (drop 10 P1))) eqn:Hd2; cbn [negb]; [|cbn; congruence].
  rewrite (wcstoul_rest _ Hd2).
  destruct (negb (deref (skip_digits (drop 10 P1)) =? UNICODE_NULL)
            && negb (deref (skip_digits (drop 10 P1)) =? OBJ_NAME_PATH_SEPARATOR));
    [cbn; congruence|].
  cbn [pPartNumber]. intros _. split; reflexivity.
Qed.

Lemma NtPathToDiskPartComponents_partition_value_witness :
  starts_with_literal (L "\Partition")
    (skip_digits (drop 16 (L "\Device\Harddisk0\partition12\boot.ini"))) = true
  ∧ pPartNumber (NtPathToDiskPartComponents (L "\Device\Harddisk0\partition12\boot.ini") true)
    = Z.min (decimal (leading_digits
                        (drop 10 (skip_digits
                                    (drop 16 (L "\Device\Harddisk0\partition12\boot.ini"))))))
            ULONG_MAX.
Proof.
  apply (NtPathToDiskPartComponents_partition_value
           (L "\Device\Harddisk0\partition12\boot.ini") true).
  discriminate.
Defined.

(** X12: whether the optional [PathComponent] pointer is passed changes
    nothing else: the returned [BOOLEAN] and both numbers are the same,
    and without the pointer no remainder is returned. *)
Theorem NtPathToDiskPartComponents_optional_PathComponent (NtPath : PCWSTR) :
  let with_pointer := NtPathToDiskPartComponents NtPath true in
  let without := NtPathToDiskPartComponents NtPath false in
  ret without = ret with_pointer
  ∧ pDiskNumber without = pDiskNumber with_pointer
  ∧ pPartNumber without = pPartNumber with_pointer
  ∧ PathComponent without = None.
Proof.
  unfold NtPathToDiskPartComponents. parse_paths; repeat split.
Qed.

(** ** The name built in FullName *)

Lemma RtlStringCchCopyW_array (m : Buffer) (pszSrc : PCWSTR) :
  length m = MAX_PATH →
  buffer_after m (RtlStringCchCopyW m MAX_PATH pszSrc)
  = holds (take (MAX_PATH - 1) (cstr pszSrc))
          (drop (S (Nat.min (MAX_PATH - 1) (length (cstr pszSrc)))) m).
Proof.
  intros Hm. unfold RtlStringCchCopyW.
  change (Z.of_nat MAX_PATH >? NTSTRSAFE_MAX_CCH) with false. cbn iota.
  rewrite RtlStringCopyWorkerW_spec by (unfold MAX_PATH in *; lia).
  cbn [buffer_after take app]. unfold holds.
  replace (0 + Nat.min (MAX_PATH - 1) (length (cstr pszSrc)) + 1)%nat
    with (S (Nat.min (MAX_PATH - 1) (length (cstr pszSrc)))) by lia.
  reflexivity.
Qed.

(** After both steps the array holds the built name, whatever it held at
    entry. *)
Lemma FullName_holds (at_entry : Buffer) (PathName FileName : option PCWSTR) :
  (MAX_PATH ≤ length at_entry)%nat →
  ∃ rest, FullName at_entry PathName FileName = holds (built_name PathName FileName) rest
          ∧ no_nul (built_name PathName FileName)
          ∧ (length (built_name PathName FileName) < MAX_PATH)%nat.
Proof.
  intros Hlen. unfold FullName, built_name.
  set (m := take MAX_PATH at_entry).
  assert (Hm : length m = MAX_PATH) by (unfold m; rewrite length_take; lia).
  set (dir := match PathName with Some d => take (MAX_PATH - 1) (cstr d) | None => [] end).
  assert (Hdir : no_nul dir ∧ (length dir < MAX_PATH)%nat).
  { unfold dir. destruct PathName as [d|].
    - split; [apply no_nul_take, cstr_no_nul|]. rewrite length_take. unfold MAX_PATH. lia.
    - split; [constructor|]. unfold MAX_PATH. cbn [length]. lia. }
  destruct Hdir as [Hnn Hshort].
  assert (Hfirst : ∃ rest1,
             match PathName with
             | Some PathName => buffer_after m (RtlStringCchCopyW m MAX_PATH PathName)
             | None => <[O:=UNICODE_NULL]> m
             end = holds dir rest1
             ∧ length (holds dir rest1) = MAX_PATH).
  { unfold dir. destruct PathName as [d|].
    - rewrite RtlStringCchCopyW_array by exact Hm. eexists. split; [reflexivity|].
      rewrite length_holds, length_take, length_drop. unfold MAX_PATH in *. lia.
    - destruct m as [|c m']; [discriminate|]. exists m'. split; [reflexivity|].
      rewrite length_holds. cbn [length] in *. lia. }
  destruct Hfirst as (rest1 & -> & Hlen1).
  destruct FileName as [f|].
  - rewrite ConcatPaths_holds;
      [|assumption|unfold MAX_PATH; lia|assumption|lia|vm_compute; discriminate].
    cbn [buffer_after]. eexists. split; [|split].
    + unfold join. rewrite take_app, (take_ge dir) by lia. reflexivity.
    + unfold join. apply no_nul_take, no_nul_app;
        [assumption|apply no_nul_join_tail, cstr_no_nul].
    + rewrite length_take. unfold MAX_PATH. lia.
  - exists rest1. split; [reflexivity|]. split; assumption.
Qed.

(** X13: for any contents of the uninitialised array, the name the code
    builds in [FullName] is the directory cut to 259 characters, joined
    with the file name by the separator policy and cut to 259 characters
    again; both string calls have their status dropped, so a name that is
    too long is shortened without notice. *)
Theorem FullName_built_name (at_entry : Buffer) (PathName FileName : option PCWSTR) :
  (MAX_PATH ≤ length at_entry)%nat →
  cstr (FullName at_entry PathName FileName) = built_name PathName FileName
  ∧ (length (cstr (FullName at_entry PathName FileName)) ≤ 259)%nat.
Proof.
  intros Hlen.
  destruct (FullName_holds at_entry PathName FileName Hlen) as (rest & -> & Hnn & Hshort).
  rewrite cstr_holds by exact Hnn. split; [reflexivity|]. unfold MAX_PATH in Hshort. lia.
Qed.

Lemma FullName_built_name_witness :
  cstr (FullName garbage (Some (L "\SystemRoot\")) (Some (L "\txtsetup.sif")))
  = built_name (Some (L "\SystemRoot\")) (Some (L "\txtsetup.sif"))
  ∧ (length (cstr (FullName garbage (Some (L "\SystemRoot\")) (Some (L "\txtsetup.sif"))))
     ≤ 259)%nat.
Proof.
  apply (FullName_built_name garbage (Some (L "\SystemRoot\")) (Some (L "\txtsetup.sif"))).
  vm_compute. lia.
Defined.

(** ** Properties of DoesPathExist and DoesFileExist *)

Lemma RtlInitUnicodeString_short (s : PCWSTR) :
  (length (cstr s) < MAX_PATH)%nat → RtlInitUnicodeString s = cstr s.
Proof.
  intros Hs. unfold RtlInitUnicodeString. apply take_ge.
  change (Z.to_nat 32766) with (Z.to_nat 260 + Z.to_nat 32506)%nat.
  change (Z.to_nat 260) with MAX_PATH. lia.
Qed.

(** X14: the directory probe returns whether the open succeeded, makes one
    open for listing the directory, shared for reading and writing, closes
    the handle it got at once, and never retains a handle: the handle
    table and the views after the call are those before it. *)
Theorem DoesPathExist_probe (env : Env) (RootDirectory : HANDLE) (PathName : PCWSTR)
    (k : Kernel) :
  let out := DoesPathExist env RootDirectory PathName k in
  out.1 = NT_SUCCESS (open_status env)
  ∧ handles out.2 = handles k ∧ views out.2 = views k
  ∧ calls out.2
    = calls k
      ++ CallNtOpenFile (Z.lor FILE_LIST_DIRECTORY SYNCHRONIZE)
           (RtlInitUnicodeString PathName) OBJ_CASE_INSENSITIVE RootDirectory
           (Z.lor FILE_SHARE_READ FILE_SHARE_WRITE)
           (Z.lor FILE_SYNCHRONOUS_IO_NONALERT FILE_DIRECTORY_FILE)
         :: (if NT_SUCCESS (open_status env)
             then [CallNtClose (unused (handles k))] else []).
Proof.
  intros out. subst out. unfold DoesPathExist. run_services.
  repeat path_step; rewrite <- ?app_assoc; repeat split.
Qed.

(** X15: the file probe returns whether the open succeeded, opens the
    built name once as a file that is not a directory, for reading and
    shared for reading and writing, closes the handle it got at once, and
    never retains a handle. *)
Theorem DoesFileExist_probe (env : Env) (RootDirectory : HANDLE)
    (PathName FileName : option PCWSTR) (k : Kernel) :
  (MAX_PATH ≤ length (FullName_at_entry env))%nat →
  let out := DoesFileExist env RootDirectory PathName FileName k in
  out.1 = NT_SUCCESS (open_status env)
  ∧ handles out.2 = handles k ∧ views out.2 = views k
  ∧ calls out.2
    = calls k
      ++ CallNtOpenFile (Z.lor GENERIC_READ SYNCHRONIZE)
           (built_name PathName FileName) OBJ_CASE_INSENSITIVE RootDirectory
           (Z.lor FILE_SHARE_READ FILE_SHARE_WRITE)
           (Z.lor FILE_SYNCHRONOUS_IO_NONALERT FILE_NON_DIRECTORY_FILE)
         :: (if NT_SUCCESS (open_status env)
             then [CallNtClose (unused (handles k))] else []).
Proof.
  intros Hlen out. subst out. unfold DoesFileExist.
  destruct (FullName_holds _ PathName FileName Hlen) as (rest & Hfull & Hnn & Hshort).
  assert (Hname : RtlInitUnicodeString (FullName (FullName_at_entry env) PathName FileName)
                  = built_name PathName FileName).
  { rewrite RtlInitUnicodeString_short; rewrite Hfull, cstr_holds by exact Hnn;
      [reflexivity|exact Hshort]. }
  rewrite Hname. run_services.
  repeat path_step; rewrite <- ?app_assoc; repeat split.
Qed.

Lemma DoesFileExist_probe_witness :
  let out := DoesFileExist (all_ok 1000) NULL (Some (L "\SystemRoot")) (Some (L "txtsetup.sif"))
               boot in
  out.1 = TRUE ∧ handles out.2 = [] ∧ views out.2 = []
  ∧ calls out.2
    = [CallNtOpenFile (Z.lor GENERIC_READ SYNCHRONIZE)
         (built_name (Some (L "\SystemRoot")) (Some (L "txtsetup.sif")))
         OBJ_CASE_INSENSITIVE NULL (Z.lor FILE_SHARE_READ FILE_SHARE_WRITE)
         (Z.lor FILE_SYNCHRONOUS_IO_NONALERT FILE_NON_DIRECTORY_FILE);
       CallNtClose 1].
Proof.
  apply (DoesFileExist_probe (all_ok 1000) NULL (Some (L "\SystemRoot"))
           (Some (L "txtsetup.sif")) boot).
  vm_compute. lia.
Defined.

(** ** Further properties of OpenAndMapFile and UnMapFile *)

(** X16: the call returns a success status exactly when the open, the
    query (when the size is requested), the section creation and the
    mapping all do. *)
Theorem OpenAndMapFile_succeeds_iff
    (env : Env) (RootDirectory : HANDLE) (PathName FileName : option PCWSTR)
    (HaveFileSize : bool) (k : Kernel) :
  NT_SUCCESS (Status (OpenAndMapFile env RootDirectory PathName FileName HaveFileSize k).1)
  = true
  ↔ NT_SUCCESS (open_status env) = true
    ∧ (HaveFileSize = true → NT_SUCCESS (query_status env) = true)
    ∧ NT_SUCCESS (section_status env) = true
    ∧ NT_SUCCESS (map_status env) = true.
Proof.
  run_services. repeat path_step; intuition (try reflexivity; congruence).
Qed.

Lemma unused_positive (used : list Z) : 0 < unused used.
Proof.
  unfold unused. assert (0 ≤ foldr Z.max 0 used); [|lia].
  induction used as [|x used IH]; cbn [foldr]; lia.
Qed.

Lemma unused_head_differs (used : list Z) : unused used ≠ unused (unused used :: used).
Proof.
  pose proof (unused_above (unused used :: used) (unused used) ltac:(left)). lia.
Qed.

Lemma is_open_tail (h x : Z) (used : list Z) :
  is_open h (x :: used) = false → is_open h used = false.
Proof. unfold is_open. cbn [existsb]. intros H. apply orb_false_iff in H as [_ H]. exact H. Qed.

(** X17: when the call succeeds it returns [STATUS_SUCCESS] itself, it has
    closed nothing, and what it returns is exactly what the kernel holds
    in addition: the section handle and the file handle, two different
    handles that are not [NULL] and were not open before, and one view at
    the returned base address. *)
Theorem OpenAndMapFile_success_acquires
    (env : Env) (RootDirectory : HANDLE) (PathName FileName : option PCWSTR)
    (HaveFileSize : bool) (k : Kernel) :
  let out := OpenAndMapFile env RootDirectory PathName FileName HaveFileSize k in
  NT_SUCCESS (Status out.1) = true →
  Status out.1 = STATUS_SUCCESS
  ∧ handles out.2 = SectionHandle out.1 :: FileHandle out.1 :: handles k
  ∧ (∃ base, BaseAddress out.1 = Some base ∧ base ≠ NULL ∧ views out.2 = base :: views k
             ∧ is_open base (views k) = false)
  ∧ FileHandle out.1 ≠ NULL ∧ SectionHandle out.1 ≠ NULL
  ∧ FileHandle out.1 ≠ SectionHandle out.1
  ∧ is_open (FileHandle out.1) (handles k) = false
  ∧ is_open (SectionHandle out.1) (handles k) = false
  ∧ resources out.2 = (resources k + 3)%nat
  ∧ (∃ later, calls out.2 = calls k ++ later ∧ existsb is_close_call later = false).
Proof.
  intros out. subst out.
  pose proof (unused_positive (handles k)) as Hfile.
  pose proof (unused_positive (unused (handles k) :: handles k)) as Hsection.
  pose proof (unused_positive (views k)) as Hbase.
  pose proof (unused_head_differs (handles k)) as Hdiff.
  pose proof (unused_not_open (handles k)) as Hnew.
  pose proof (is_open_tail _ _ _ (unused_not_open (unused (handles k) :: handles k))) as Hnew'.
  pose proof (unused_not_open (views k)) as Hview.
  run_services.
  repeat path_step; intros Hok; try discriminate;
    (split; [reflexivity|]); (split; [reflexivity|]);
    (split; [eexists; repeat split; try reflexivity; [unfold NULL; lia|assumption]|]);
    (split; [unfold NULL; lia|]); (split; [unfold NULL; lia|]);
    (split; [assumption|]); (split; [assumption|]); (split; [assumption|]);
    (split; [lia|]);
    rewrite <- ?app_assoc; cbn [app]; eexists; (split; [reflexivity|]); reflexivity.
Qed.

Lemma OpenAndMapFile_success_acquires_witness :
  let out := OpenAndMapFile (all_ok 1000) NULL (Some (L "\SystemRoot")) (Some (L "txtsetup.sif"))
               false boot in
  Status out.1 = STATUS_SUCCESS
  ∧ handles out.2 = SectionHandle out.1 :: FileHandle out.1 :: handles boot.
Proof.
  pose proof (OpenAndMapFile_success_acquires (all_ok 1000) NULL (Some (L "\SystemRoot"))
                (Some (L "txtsetup.sif")) false boot eq_refl) as (Hst & Hh & _).
  split; [exact Hst|exact Hh].
Defined.

(** X18: when the size is not requested the call never queries the file
    and stores no size. *)
Theorem OpenAndMapFile_without_FileSize
    (env : Env) (RootDirectory : HANDLE) (PathName FileName : option PCWSTR) (k : Kernel) :
  let out := OpenAndMapFile env RootDirectory PathName FileName false k in
  FileSize out.1 = None
  ∧ ∃ later, calls out.2 = calls k ++ later ∧ existsb is_query_call later = false.
Proof.
  intros out. subst out. run_services.
  repeat path_step; (split; [reflexivity|]);
    rewrite <- ?app_assoc; cbn [app]; eexists; (split; [reflexivity|]); reflexivity.
Qed.

Lemma is_open_release (h : Z) (used : list Z) : is_open h (release h used) = false.
Proof.
  unfold is_open, release. apply not_true_is_false. intros Hex.
  apply existsb_exists in Hex as (x & Hin & Heq). apply Z.eqb_eq in Heq. subst x.
  apply list_elem_of_In, list_elem_of_filter in Hin as [Hne _]. congruence.
Qed.

Lemma is_open_release_other (h x : Z) (used : list Z) :
  h ≠ x → is_open h (release x used) = is_open h used.
Proof.
  intros Hne. unfold is_open, release. induction used as [|y used IH]; [reflexivity|].
  destruct (decide (y = x)) as [->|Hy].
  - rewrite filter_cons_False by (intros H; apply H; reflexivity).
    cbn [existsb]. destruct (Z.eqb_spec h x); [contradiction|]. exact IH.
  - rewrite filter_cons_True by exact Hy. cbn [existsb]. rewrite IH. reflexivity.
Qed.

(** X19: after a successful call, [UnMapFile] on the returned section
    handle and base address returns [TRUE], removes the view and the
    section handle, and leaves the file handle open; closing the file
    handle then succeeds and the kernel holds what it held before the
    open. *)
Theorem OpenAndMapFile_then_UnMapFile
    (env : Env) (RootDirectory : HANDLE) (PathName FileName : option PCWSTR)
    (HaveFileSize : bool) (k : Kernel) (base : PVOID) :
  let opened := OpenAndMapFile env RootDirectory PathName FileName HaveFileSize k in
  let unmapped := UnMapFile (SectionHandle opened.1) base opened.2 in
  let closed := NtClose (FileHandle opened.1) unmapped.2 in
  NT_SUCCESS (Status opened.1) = true →
  BaseAddress opened.1 = Some base →
  unmapped.1 = TRUE
  ∧ handles unmapped.2 = FileHandle opened.1 :: handles k
  ∧ views unmapped.2 = views k
  ∧ NT_SUCCESS closed.1 = true
  ∧ handles closed.2 = handles k ∧ views closed.2 = views k.
Proof.
  intros opened unmapped closed. subst closed unmapped opened.
  pose proof (unused_not_open (handles k)) as Hfile.
  pose proof (unused_not_open (unused (handles k) :: handles k)) as Hsection.
  pose proof (unused_not_open (views k)) as Hview.
  run_services.
  repeat path_step; intros Hok [= <-]; try discriminate;
    unfold NtUnmapViewOfSection, NtClose, sys_bind, record;
    cbn [handles views calls fst snd];
    repeat (progress (rewrite ?is_open_head, ?release_head by assumption;
                      cbn [handles views calls fst snd negb]));
    repeat split.
Qed.

Lemma OpenAndMapFile_then_UnMapFile_witness :
  let opened := OpenAndMapFile (all_ok 1000) NULL (Some (L "\SystemRoot"))
                  (Some (L "txtsetup.sif")) true boot in
  let unmapped := UnMapFile (SectionHandle opened.1) 1 opened.2 in
  let closed := NtClose (FileHandle opened.1) unmapped.2 in
  unmapped.1 = TRUE
  ∧ handles unmapped.2 = FileHandle opened.1 :: handles boot
  ∧ views unmapped.2 = views boot
  ∧ NT_SUCCESS closed.1 = true
  ∧ handles closed.2 = handles boot ∧ views closed.2 = views boot.
Proof.
  apply (OpenAndMapFile_then_UnMapFile (all_ok 1000) NULL (Some (L "\SystemRoot"))
           (Some (L "txtsetup.sif")) true boot 1); reflexivity.
Defined.

(** X20: a second [UnMapFile] with the same arguments returns [FALSE] and
    changes neither the handle table nor the views: the view is already
    gone and the handle already closed. *)
Theorem UnMapFile_twice (SectionHandle : HANDLE) (BaseAddress : PVOID) (k : Kernel) :
  let first := UnMapFile SectionHandle BaseAddress k in
  let second := UnMapFile SectionHandle BaseAddress first.2 in
  second.1 = FALSE
  ∧ handles second.2 = handles first.2 ∧ views second.2 = views first.2.
Proof.
  intros first second. subst second first.
  unfold UnMapFile, NtClose, NtUnmapViewOfSection, sys_bind, sys_ret, record.
  cbn [handles views calls fst snd].
  destruct (is_open BaseAddress (views k)) eqn:Hview; cbn [handles views calls fst snd];
    destruct (is_open SectionHandle (handles k)) eqn:Hhandle;
    cbn [handles views calls fst snd];
    rewrite ?is_open_release, ?Hview, ?Hhandle; cbn [handles views calls fst snd];
    rewrite ?is_open_release, ?Hview, ?Hhandle; cbn [handles views calls fst snd];
    repeat split.
Qed.

(** X21: [UnMapFile] touches no other handle and no other view: a handle
    other than the section handle is open after the call exactly when it
    was before, and so is a view at another base address. *)
Theorem UnMapFile_leaves_others
    (SectionHandle : HANDLE) (BaseAddress : PVOID) (k : Kernel) (h : HANDLE) (b : PVOID) :
  h ≠ SectionHandle → b ≠ BaseAddress →
  let out := UnMapFile SectionHandle BaseAddress k in
  is_open h (handles out.2) = is_open h (handles k)
  ∧ is_open b (views out.2) = is_open b (views k).
Proof.
  intros Hh Hb out. subst out.
  unfold UnMapFile, NtClose, NtUnmapViewOfSection, sys_bind, sys_ret, record.
  cbn [handles views calls fst snd].
  destruct (is_open BaseAddress (views k)); cbn [handles views calls fst snd];
    destruct (is_open SectionHandle (handles k)); cbn [handles views calls fst snd];
    rewrite ?is_open_release_other by assumption; split; reflexivity.
Qed.

Lemma UnMapFile_leaves_others_witness :
  let out := UnMapFile 2 1 (mkKernel [2; 1] [1] []) in
  is_open 1 (handles out.2) = is_open 1 (handles (mkKernel [2; 1] [1] []))
  ∧ is_open 5 (views out.2) = is_open 5 (views (mkKernel [2; 1] [1] [])).
Proof.
  apply (UnMapFile_leaves_others 2 1 (mkKernel [2; 1] [1] []) 1 5); discriminate.
Defined.

(** ** The numbers NtPathToDiskPartComponents returns *)

(** X22: whenever the call returns [TRUE], also on the lenient exits, the
    disk number is the value of the digits behind the prefix, or
    [ULONG_MAX] when that value does not fit. *)
Theorem NtPathToDiskPartComponents_disk_number
    (NtPath : PCWSTR) (HavePathComponent : bool) :
  ret (NtPathToDiskPartComponents NtPath HavePathComponent) = TRUE →
  pDiskNumber (NtPathToDiskPartComponents NtPath HavePathComponent)
  = Z.min (decimal (leading_digits (drop 16 NtPath))) ULONG_MAX.
Proof.
  unfold NtPathToDiskPartComponents.
  destruct (negb (_wcsnicmp NtPath (L "\Device\Harddisk") 16 =? 0)); [discriminate|].
  destruct (iswdigit (deref (drop 16 NtPath))) eqn:Hd0; cbn [negb]; [|discriminate].
  rewrite (wcstoul_rest _ Hd0).
  parse_paths; cbn [ret pDiskNumber]; intros Hret; solve [reflexivity | discriminate].
Qed.

Lemma NtPathToDiskPartComponents_disk_number_witness :
  pDiskNumber (NtPathToDiskPartComponents (L "\Device\Harddisk42\Partition") false)
  = Z.min (decimal (leading_digits (drop 16 (L "\Device\Harddisk42\Partition")))) ULONG_MAX.
Proof.
  apply (NtPathToDiskPartComponents_disk_number (L "\Device\Harddisk42\Partition") false).
  reflexivity.
Defined.

(** X23: a partition number other than 0 is returned only for a complete
    partition specifier: the remainder returned with it is empty or starts
    with the separator. *)
Theorem NtPathToDiskPartComponents_partition_number (NtPath Path : PCWSTR) :
  pPartNumber (NtPathToDiskPartComponents NtPath true) ≠ 0 →
  PathComponent (NtPathToDiskPartComponents NtPath true) = Some Path →
  deref Path = UNICODE_NULL ∨ deref Path = OBJ_NAME_PATH_SEPARATOR.
Proof.
  unfold NtPathToDiskPartComponents.
  destruct (negb (_wcsnicmp NtPath (L "\Device\Harddisk") 16 =? 0));
    [cbn; congruence|].
  destruct (negb (iswdigit (deref (drop 16 NtPath)))); [cbn; congruence|].
  destruct (wcstoul (drop 16 NtPath)) as [DiskNumber P1].
  destruct (negb (deref P1 =? UNICODE_NULL) && negb (deref P1 =? OBJ_NAME_PATH_SEPARATOR));
    [cbn; congruence|].
  destruct (deref P1 =? UNICODE_NULL); [cbn; congruence|].
  destruct (negb (_wcsnicmp P1 (L "\Partition") 10 =? 0)); [cbn; congruence|].
  destruct (negb (iswdigit (deref (drop 10 P1)))); [cbn; congruence|].
  destruct (wcstoul (drop 10 P1)) as [PartNumber P2].
  destruct (Z.eqb_spec (deref P2) UNICODE_NULL) as [Hend|Hend];
    destruct (Z.eqb_spec (deref P2) OBJ_NAME_PATH_SEPARATOR) as [Hsep|Hsep];
    cbn; intros Hpart [= <-]; tauto.
Qed.

Lemma NtPathToDiskPartComponents_partition_number_witness :
  deref (L "\boot.ini") = UNICODE_NULL ∨ deref (L "\boot.ini") = OBJ_NAME_PATH_SEPARATOR.
Proof.
  apply (NtPathToDiskPartComponents_partition_number
           (L "\Device\Harddisk0\Partition2\boot.ini") (L "\boot.ini"));
    [discriminate | reflexivity].
Defined.
